(** * node-sodium: the AEAD binding layer (src/crypto_aead.cc)

    A shallow embedding of the N-API methods of [crypto_aead.cc] and the
    properties of the AEAD orchestration layer that they implement.

    The methods validate their JavaScript arguments, allocate the output
    buffers, call one libsodium entry point and return either a buffer, an
    object of buffers, [undefined], or throw a JavaScript error.  libsodium
    itself is an external collaborator: it is a parameter of the whole
    development ([Sodium]), and every property is proved for every
    implementation of it that satisfies the stated part of its contract. *)

From Stdlib Require Import String DecimalString.
From Stdlib.Strings Require Import Byte.
From Stdlib Require Import List ZArith Bool Lia PeanoNat.
Import ListNotations.

Set Warnings "-register-all".

Local Open Scope string_scope.
Local Open Scope list_scope.
Local Open Scope nat_scope.

(** ** Data *)

Definition bytes := list byte.

(** The algorithm families registered by [register_crypto_aead]. *)
Inductive algorithm :=
| aes256gcm
| chacha20poly1305
| chacha20poly1305_ietf
| xchacha20poly1305_ietf.

(** Modelled from the spec: the [crypto_aead_*_KEYBYTES], [_NPUBBYTES] and
    [_ABYTES] constants come from libsodium's headers, which are not part of
    the sources; the values are those of the spec's AlgorithmProfile table
    (key 32 everywhere, tag 16 everywhere, nonce 12 / 8 / 12 / 24). *)
Definition KEYBYTES (a : algorithm) : nat := 32.

Definition NPUBBYTES (a : algorithm) : nat :=
  match a with
  | aes256gcm => 12
  | chacha20poly1305 => 8
  | chacha20poly1305_ietf => 12
  | xchacha20poly1305_ietf => 24
  end.

Definition ABYTES (a : algorithm) : nat := 16.

Definition crypto_aead_aes256gcm_KEYBYTES : nat := KEYBYTES aes256gcm.
Definition crypto_aead_aes256gcm_NPUBBYTES : nat := NPUBBYTES aes256gcm.
Definition crypto_aead_aes256gcm_ABYTES : nat := ABYTES aes256gcm.

(** JavaScript values that cross the boundary: what [info[i]] may hold and
    what a method may return. *)
Inductive value :=
| Undefined
| Null
| Boolean (b : bool)
| Buffer (data : bytes)
| Object (props : list (string * value)).

(** The failure taxonomy of the orchestration layer. *)
Inductive failure :=
| InvalidArgument
| InvalidLength
| UnsupportedAlgorithm
| AuthenticationFailed
| EncryptionFailed.

(** ** The external collaborator

    Each libsodium entry point is a function from its input buffers to its
    return code and the bytes it stores through its output pointer(s).  The
    additional data is a pointer that may be [NULL] (then [None], with
    [ad_size = 0]).  The entry points store bytes whatever the return code
    is: nothing here says that a failing call leaves its output untouched. *)
Record Sodium := {
  lib_aes256gcm_is_available : Z;
  lib_aes256gcm_statebytes : nat;
  lib_aes256gcm_beforenm : bytes -> Z * bytes;
  lib_aes256gcm_encrypt_afternm :
    bytes -> option bytes -> bytes -> bytes -> Z * bytes;
  lib_aes256gcm_decrypt_afternm :
    bytes -> option bytes -> bytes -> bytes -> Z * bytes;
  lib_aes256gcm_encrypt_detached_afternm :
    bytes -> option bytes -> bytes -> bytes -> Z * (bytes * bytes);
  lib_aes256gcm_decrypt_detached_afternm :
    bytes -> bytes -> option bytes -> bytes -> bytes -> Z * bytes;
  lib_encrypt :
    algorithm -> bytes -> option bytes -> bytes -> bytes -> Z * bytes;
  lib_decrypt :
    algorithm -> bytes -> option bytes -> bytes -> bytes -> Z * bytes;
  lib_encrypt_detached :
    algorithm -> bytes -> option bytes -> bytes -> bytes -> Z * (bytes * bytes);
  lib_decrypt_detached :
    algorithm -> bytes -> bytes -> option bytes -> bytes -> bytes -> Z * bytes
}.

(** Which entry point a call went to. *)
Inductive entry_point :=
| ep_is_available
| ep_statebytes
| ep_beforenm
| ep_encrypt_afternm
| ep_decrypt_afternm
| ep_encrypt_detached_afternm
| ep_decrypt_detached_afternm
| ep_encrypt (a : algorithm)
| ep_decrypt (a : algorithm)
| ep_encrypt_detached (a : algorithm)
| ep_decrypt_detached (a : algorithm).

(** One call into libsodium: the entry point, the contents of the output
    buffers handed to it, its return code, and the contents of the same
    buffers when it returns. *)
Record event := Call {
  ev_entry : entry_point;
  ev_out_before : list bytes;
  ev_rc : Z;
  ev_out_after : list bytes
}.

(** The capability query and the state-size query are calls too, but they
    transform nothing. *)
Definition is_transform (e : event) : bool :=
  match ev_entry e with
  | ep_is_available | ep_statebytes => false
  | _ => true
  end.

(** ** The method monad

    A method runs to a [completion]: it returns a value, or it leaves with a
    pending JavaScript exception.  Along the way it records its calls into
    libsodium. *)
Inductive completion (A : Type) :=
| Normal (a : A)
| Thrown (kind : failure) (message : string).

Arguments Normal {A} a.
Arguments Thrown {A} kind message.

Definition M (A : Type) : Type := (list event * completion A)%type.

Definition ret {A} (a : A) : M A := ([], Normal a).

Definition throw {A} (kind : failure) (message : string) : M A :=
  ([], Thrown kind message).

Definition bind {A B} (c : M A) (k : A -> M B) : M B :=
  match c with
  | (t, Normal a) => let (t', r) := k a in (t ++ t', r)
  | (t, Thrown kind message) => (t, Thrown kind message)
  end.

Definition emit (e : event) : M unit := ([e], Normal tt).

Declare Scope method_scope.
Delimit Scope method_scope with method.

Notation "x <- c ;; k" := (bind c (fun x => k))
  (at level 61, c at next level, right associativity) : method_scope.
Notation "' pat <- c ;; k" :=
  (bind c (fun x => match x with pat => k end))
  (at level 61, pat pattern, c at next level, right associativity)
  : method_scope.
Notation "c ;; k" := (bind c (fun _ => k))
  (at level 61, right associativity) : method_scope.

Definition trace {A} (c : M A) : list event := fst c.
Definition outcome {A} (c : M A) : completion A := snd c.

(** ** Memory *)

(** Storing [written] through a pointer to the start of [buf]: the buffer
    keeps its length (a buffer object never changes size; libsodium's
    contract keeps every store inside the allocation). *)
Definition store (buf written : bytes) : bytes :=
  firstn (length buf) (written ++ skipn (length written) buf).

(** [sodium_memzero(ptr, len)]. *)
Definition sodium_memzero (buf : bytes) (len : nat) : bytes :=
  store buf (repeat x00 len).

Definition decimal (n : nat) : string :=
  NilEmpty.string_of_uint (Nat.to_uint n).

Section Binding.

Local Open Scope method_scope.

Variable lib : Sodium.

(** What a fresh allocation holds before anyone writes to it:
    [uninit slot i] is byte [i] of the [slot]-th allocation of a call. *)
Variable uninit : nat -> nat -> byte.

(** *** The macros of node_sodium.h *)

(** Modelled from the spec: the body of [ARGS] (node_sodium.h is not part of
    the sources).  It requires [n] arguments and starts the running argument
    index [_arg] at 0; the index is written out at each use below.  Too few
    arguments is a wrong argument shape. *)
Definition ARGS (info : list value) (n : nat) (message : string) : M unit :=
  if length info <? n then throw InvalidArgument message else ret tt.

(** Modelled from the spec: the body of [ARG_TO_UCHAR_BUFFER].  The argument
    must be a buffer, of any length (a message has any length >= 0);
    [info[i]] beyond the supplied arguments is [undefined]. *)
Definition ARG_TO_UCHAR_BUFFER (info : list value) (_arg : nat)
    (NAME : string) : M bytes :=
  match nth _arg info Undefined with
  | Buffer data => ret data
  | _ => throw InvalidArgument
           ("argument " ++ NAME ++ " must be a buffer")%string
  end.

(** Modelled from the spec: the body of [ARG_TO_UCHAR_BUFFER_LEN].  The
    argument must be a buffer of exactly [MAXLEN] bytes.  [MAXLEN] is macro
    text: it is evaluated where the macro compares the length. *)
Definition ARG_TO_UCHAR_BUFFER_LEN (info : list value) (_arg : nat)
    (NAME : string) (MAXLEN : M nat) : M bytes :=
  data <- ARG_TO_UCHAR_BUFFER info _arg NAME ;;
  len <- MAXLEN ;;
  if length data =? len then ret data
  else throw InvalidLength
         ("argument " ++ NAME ++ " must be " ++ decimal len
            ++ " bytes long")%string.

(** Modelled from the spec: the body of [ARG_TO_UCHAR_BUFFER_OR_NULL].  The
    additional data is optional and unvalidated: a buffer is passed on with
    its size, anything else becomes the [NULL] pointer with size 0. *)
Definition ARG_TO_UCHAR_BUFFER_OR_NULL (info : list value) (_arg : nat)
    : M (option bytes) :=
  match nth _arg info Undefined with
  | Buffer data => ret (Some data)
  | _ => ret None
  end.

(** [NEW_BUFFER_AND_PTR(name, size)]: a new buffer of [size] bytes.  The
    macro body is not part of the sources; what the allocation holds is the
    parameter [uninit]. *)
Definition NEW_BUFFER_AND_PTR (slot size : nat) : bytes :=
  map (uninit slot) (seq 0 size).

(** *** Calls into libsodium *)

Definition crypto_aead_aes256gcm_statebytes : M nat :=
  emit (Call ep_statebytes [] 0 []) ;;
  ret (lib_aes256gcm_statebytes lib).

(** A call that stores through one output pointer. *)
Definition call1 (ep : entry_point) (out : bytes) (r : Z * bytes)
    : M (Z * bytes) :=
  let out' := store out (snd r) in
  emit (Call ep [out] (fst r) [out']) ;;
  ret (fst r, out').

(** A call that stores through two output pointers. *)
Definition call2 (ep : entry_point) (out1 out2 : bytes)
    (r : Z * (bytes * bytes)) : M (Z * (bytes * bytes)) :=
  let out1' := store out1 (fst (snd r)) in
  let out2' := store out2 (snd (snd r)) in
  emit (Call ep [out1; out2] (fst r) [out1'; out2']) ;;
  ret (fst r, (out1', out2')).

(** *** The methods of crypto_aead.cc *)

Definition crypto_aead_aes256gcm_is_available (info : list value) : M value :=
  let rc := lib_aes256gcm_is_available lib in
  emit (Call ep_is_available [] rc []) ;;
  if (rc =? 1)%Z then ret (Boolean true) else ret (Boolean false).

Definition crypto_aead_aes256gcm_beforenm (info : list value) : M value :=
  ARGS info 1 "arguments key must be a buffer" ;;
  key <- ARG_TO_UCHAR_BUFFER_LEN info 0 "key"
           (ret crypto_aead_aes256gcm_KEYBYTES) ;;
  size <- crypto_aead_aes256gcm_statebytes ;;
  let ctxt := NEW_BUFFER_AND_PTR 0 size in
  '(rc, ctxt) <- call1 ep_beforenm ctxt (lib_aes256gcm_beforenm lib key) ;;
  if (rc =? 0)%Z then ret (Buffer ctxt) else ret Undefined.

Definition crypto_aead_aes256gcm_encrypt_afternm (info : list value)
    : M value :=
  ARGS info 4
    "arguments message, additional data, nonce, and key must be buffers" ;;
  m <- ARG_TO_UCHAR_BUFFER info 0 "m" ;;
  ad <- ARG_TO_UCHAR_BUFFER_OR_NULL info 1 ;;
  npub <- ARG_TO_UCHAR_BUFFER_LEN info 2 "npub"
            (ret crypto_aead_aes256gcm_NPUBBYTES) ;;
  ctx <- ARG_TO_UCHAR_BUFFER_LEN info 3 "ctx"
           crypto_aead_aes256gcm_statebytes ;;
  let m_size := length m in
  let c := NEW_BUFFER_AND_PTR 0 (crypto_aead_aes256gcm_ABYTES + m_size) in
  let c := sodium_memzero c (crypto_aead_aes256gcm_ABYTES + m_size) in
  '(rc, c) <- call1 ep_encrypt_afternm c
                (lib_aes256gcm_encrypt_afternm lib m ad npub ctx) ;;
  if (rc =? 0)%Z then ret (Buffer c) else ret Undefined.

Definition crypto_aead_aes256gcm_decrypt_afternm (info : list value)
    : M value :=
  ARGS info 4
    "arguments chiper text, additional data, nonce, and key must be buffers" ;;
  c <- ARG_TO_UCHAR_BUFFER info 0 "c" ;;
  let c_size := length c in
  if c_size <? crypto_aead_aes256gcm_ABYTES then
    throw InvalidLength
      ("argument cipher text must be at least "
         ++ decimal crypto_aead_aes256gcm_ABYTES ++ " bytes long")%string
  else
    ad <- ARG_TO_UCHAR_BUFFER_OR_NULL info 1 ;;
    npub <- ARG_TO_UCHAR_BUFFER_LEN info 2 "npub"
              (ret crypto_aead_aes256gcm_NPUBBYTES) ;;
    ctx <- ARG_TO_UCHAR_BUFFER_LEN info 3 "ctx"
             crypto_aead_aes256gcm_statebytes ;;
    let m := NEW_BUFFER_AND_PTR 0 (c_size - crypto_aead_aes256gcm_ABYTES) in
    '(rc, m) <- call1 ep_decrypt_afternm m
                  (lib_aes256gcm_decrypt_afternm lib c ad npub ctx) ;;
    if (rc =? 0)%Z then ret (Buffer m) else ret Undefined.

Definition crypto_aead_aes256gcm_encrypt_detached_afternm
    (info : list value) : M value :=
  ARGS info 4
    "arguments message, additional data, nonce, and key must be buffers" ;;
  m <- ARG_TO_UCHAR_BUFFER info 0 "m" ;;
  ad <- ARG_TO_UCHAR_BUFFER_OR_NULL info 1 ;;
  npub <- ARG_TO_UCHAR_BUFFER_LEN info 2 "npub"
            (ret crypto_aead_aes256gcm_NPUBBYTES) ;;
  ctx <- ARG_TO_UCHAR_BUFFER_LEN info 3 "ctx"
           crypto_aead_aes256gcm_statebytes ;;
  let m_size := length m in
  let c := NEW_BUFFER_AND_PTR 0 m_size in
  let mac := NEW_BUFFER_AND_PTR 1 crypto_aead_aes256gcm_ABYTES in
  '(rc, (c, mac)) <- call2 ep_encrypt_detached_afternm c mac
                       (lib_aes256gcm_encrypt_detached_afternm lib
                          m ad npub ctx) ;;
  if (rc =? 0)%Z then
    ret (Object [("cipherText", Buffer c); ("mac", Buffer mac)])
  else ret Undefined.

Definition crypto_aead_aes256gcm_decrypt_detached_afternm
    (info : list value) : M value :=
  ARGS info 4
    "arguments cipher message, mac, additional data, nsec, nonce, and key must be buffers" ;;
  c <- ARG_TO_UCHAR_BUFFER info 0 "c" ;;
  mac <- ARG_TO_UCHAR_BUFFER_LEN info 1 "mac"
           (ret crypto_aead_aes256gcm_ABYTES) ;;
  ad <- ARG_TO_UCHAR_BUFFER_OR_NULL info 2 ;;
  npub <- ARG_TO_UCHAR_BUFFER_LEN info 3 "npub"
            (ret crypto_aead_aes256gcm_NPUBBYTES) ;;
  ctx <- ARG_TO_UCHAR_BUFFER_LEN info 4 "ctx"
           crypto_aead_aes256gcm_statebytes ;;
  let c_size := length c in
  let m := NEW_BUFFER_AND_PTR 0 c_size in
  '(rc, m) <- call1 ep_decrypt_detached_afternm m
                (lib_aes256gcm_decrypt_detached_afternm lib
                   c mac ad npub ctx) ;;
  if (rc =? 0)%Z then ret (Buffer m) else ret Undefined.

(** *** The key-based methods

    [CRYPTO_AEAD_DEF(ALGO)] and [CRYPTO_AEAD_DETACHED_DEF(ALGO)] expand, for
    each of the four algorithms, to the methods that take a raw key. *)

(** Modelled from the spec: the body of [CRYPTO_AEAD_DEF] (crypto_aead.h is
    not part of the sources), method [crypto_aead_ALGO_encrypt].  Combined
    encrypt with a raw key: nonce and key of the profile's exact lengths, a
    zero-initialised output buffer of [len(message) + tag_len] bytes, the
    non-precompute entry point of the primitive, the buffer on success and
    the [undefined] sentinel when the primitive fails. *)
Definition crypto_aead_encrypt (ALGO : algorithm) (info : list value)
    : M value :=
  ARGS info 4
    "arguments message, additional data, nonce, and key must be buffers" ;;
  m <- ARG_TO_UCHAR_BUFFER info 0 "m" ;;
  ad <- ARG_TO_UCHAR_BUFFER_OR_NULL info 1 ;;
  npub <- ARG_TO_UCHAR_BUFFER_LEN info 2 "npub" (ret (NPUBBYTES ALGO)) ;;
  k <- ARG_TO_UCHAR_BUFFER_LEN info 3 "k" (ret (KEYBYTES ALGO)) ;;
  let m_size := length m in
  let c := NEW_BUFFER_AND_PTR 0 (ABYTES ALGO + m_size) in
  let c := sodium_memzero c (ABYTES ALGO + m_size) in
  '(rc, c) <- call1 (ep_encrypt ALGO) c (lib_encrypt lib ALGO m ad npub k) ;;
  if (rc =? 0)%Z then ret (Buffer c) else ret Undefined.

(** Modelled from the spec: the body of [CRYPTO_AEAD_DEF], method
    [crypto_aead_ALGO_decrypt].  Combined decrypt with a raw key: first the
    ciphertext holds at least one tag, then nonce and key lengths, an output
    buffer of [len(ciphertext) - tag_len] bytes, the buffer on success and
    the [undefined] sentinel when verification fails. *)
Definition crypto_aead_decrypt (ALGO : algorithm) (info : list value)
    : M value :=
  ARGS info 4
    "arguments cipher text, additional data, nonce, and key must be buffers" ;;
  c <- ARG_TO_UCHAR_BUFFER info 0 "c" ;;
  let c_size := length c in
  if c_size <? ABYTES ALGO then
    throw InvalidLength
      ("argument cipher text must be at least "
         ++ decimal (ABYTES ALGO) ++ " bytes long")%string
  else
    ad <- ARG_TO_UCHAR_BUFFER_OR_NULL info 1 ;;
    npub <- ARG_TO_UCHAR_BUFFER_LEN info 2 "npub" (ret (NPUBBYTES ALGO)) ;;
    k <- ARG_TO_UCHAR_BUFFER_LEN info 3 "k" (ret (KEYBYTES ALGO)) ;;
    let m := NEW_BUFFER_AND_PTR 0 (c_size - ABYTES ALGO) in
    '(rc, m) <- call1 (ep_decrypt ALGO) m (lib_decrypt lib ALGO c ad npub k) ;;
    if (rc =? 0)%Z then ret (Buffer m) else ret Undefined.

(** Modelled from the spec: the body of [CRYPTO_AEAD_DETACHED_DEF], method
    [crypto_aead_ALGO_encrypt_detached]: same validation as the combined
    method, two independent output buffers of [len(message)] and [tag_len]
    bytes. *)
Definition crypto_aead_encrypt_detached (ALGO : algorithm)
    (info : list value) : M value :=
  ARGS info 4
    "arguments message, additional data, nonce, and key must be buffers" ;;
  m <- ARG_TO_UCHAR_BUFFER info 0 "m" ;;
  ad <- ARG_TO_UCHAR_BUFFER_OR_NULL info 1 ;;
  npub <- ARG_TO_UCHAR_BUFFER_LEN info 2 "npub" (ret (NPUBBYTES ALGO)) ;;
  k <- ARG_TO_UCHAR_BUFFER_LEN info 3 "k" (ret (KEYBYTES ALGO)) ;;
  let m_size := length m in
  let c := NEW_BUFFER_AND_PTR 0 m_size in
  let mac := NEW_BUFFER_AND_PTR 1 (ABYTES ALGO) in
  '(rc, (c, mac)) <- call2 (ep_encrypt_detached ALGO) c mac
                       (lib_encrypt_detached lib ALGO m ad npub k) ;;
  if (rc =? 0)%Z then
    ret (Object [("cipherText", Buffer c); ("mac", Buffer mac)])
  else ret Undefined.

(** Modelled from the spec: the body of [CRYPTO_AEAD_DETACHED_DEF], method
    [crypto_aead_ALGO_decrypt_detached]: ciphertext and tag are separate
    inputs and the tag has exactly [tag_len] bytes. *)
Definition crypto_aead_decrypt_detached (ALGO : algorithm)
    (info : list value) : M value :=
  ARGS info 5
    "arguments cipher message, mac, additional data, nonce, and key must be buffers" ;;
  c <- ARG_TO_UCHAR_BUFFER info 0 "c" ;;
  mac <- ARG_TO_UCHAR_BUFFER_LEN info 1 "mac" (ret (ABYTES ALGO)) ;;
  ad <- ARG_TO_UCHAR_BUFFER_OR_NULL info 2 ;;
  npub <- ARG_TO_UCHAR_BUFFER_LEN info 3 "npub" (ret (NPUBBYTES ALGO)) ;;
  k <- ARG_TO_UCHAR_BUFFER_LEN info 4 "k" (ret (KEYBYTES ALGO)) ;;
  let c_size := length c in
  let m := NEW_BUFFER_AND_PTR 0 c_size in
  '(rc, m) <- call1 (ep_decrypt_detached ALGO) m
                (lib_decrypt_detached lib ALGO c mac ad npub k) ;;
  if (rc =? 0)%Z then ret (Buffer m) else ret Undefined.

End Binding.

(** ** How a completion reads in the failure taxonomy

    The methods report a failing primitive with the [undefined] sentinel: on
    a decrypt method that is the failed tag verification, on an encrypt
    method the primitive's internal fault.  A thrown error carries its own
    kind. *)
Definition decrypt_failure (r : completion value) : option failure :=
  match r with
  | Thrown kind _ => Some kind
  | Normal Undefined => Some AuthenticationFailed
  | Normal _ => None
  end.

Definition encrypt_failure (r : completion value) : option failure :=
  match r with
  | Thrown kind _ => Some kind
  | Normal Undefined => Some EncryptionFailed
  | Normal _ => None
  end.

(** The bytes a completion hands to the caller, if any. *)
Definition returned_bytes (r : completion value) : option bytes :=
  match r with
  | Normal (Buffer data) => Some data
  | _ => None
  end.

(** An argument for the optional additional data. *)
Definition ad_value (ad : option bytes) : value :=
  match ad with
  | Some data => Buffer data
  | None => Null
  end.

(** The optional additional data an argument decodes to. *)
Definition optional_buffer (v : value) : option bytes :=
  match v with
  | Buffer data => Some data
  | _ => None
  end.

(** The query [crypto_aead_aes256gcm_statebytes()] as it shows in a trace. *)
Definition statebytes_call : event := Call ep_statebytes [] 0 [].

(** How a method ends after its one call of the primitive. *)
Definition completed (rc : Z) (v : value) : completion value :=
  if (rc =? 0)%Z then Normal v else Normal Undefined.

(** A run that stops in the validation: it throws, and whatever it asked
    libsodium before was not a transform. *)
Definition rejected (r : M value) : Prop :=
  (exists kind message, outcome r = Thrown kind message) /\
  forall e, In e (trace r) -> is_transform e = false.

(** The transforms of libsodium a run called, in order. *)
Definition transform_calls {A} (r : M A) : list event :=
  filter is_transform (trace r).

(** The same library on a host with another answer to the capability
    query. *)
Definition with_availability (lib : Sodium) (available : Z) : Sodium := {|
  lib_aes256gcm_is_available := available;
  lib_aes256gcm_statebytes := lib_aes256gcm_statebytes lib;
  lib_aes256gcm_beforenm := lib_aes256gcm_beforenm lib;
  lib_aes256gcm_encrypt_afternm := lib_aes256gcm_encrypt_afternm lib;
  lib_aes256gcm_decrypt_afternm := lib_aes256gcm_decrypt_afternm lib;
  lib_aes256gcm_encrypt_detached_afternm :=
    lib_aes256gcm_encrypt_detached_afternm lib;
  lib_aes256gcm_decrypt_detached_afternm :=
    lib_aes256gcm_decrypt_detached_afternm lib;
  lib_encrypt := lib_encrypt lib;
  lib_decrypt := lib_decrypt lib;
  lib_encrypt_detached := lib_encrypt_detached lib;
  lib_decrypt_detached := lib_decrypt_detached lib
|}.

(** ** The contract of the external collaborator

    What the layer relies on from libsodium, one statement per fact, so that
    every theorem names exactly the part it uses.  Each fact is asked only
    for nonces and keys (or states) of the lengths the layer lets through. *)

Definition valid_afternm (lib : Sodium) (npub ctx : bytes) : Prop :=
  length npub = crypto_aead_aes256gcm_NPUBBYTES /\
  length ctx = lib_aes256gcm_statebytes lib.

Definition valid_key (a : algorithm) (npub k : bytes) : Prop :=
  length npub = NPUBBYTES a /\ length k = KEYBYTES a.

(** A successful combined encryption stores [len(m) + tag_len] bytes, and
    decryption of exactly these bytes succeeds and stores [m]. *)
Definition combined_inverse (tag_len : nat) (valid : bytes -> bytes -> Prop)
    (enc dec : bytes -> option bytes -> bytes -> bytes -> Z * bytes)
    : Prop :=
  forall m ad npub secret c,
    valid npub secret ->
    enc m ad npub secret = (0%Z, c) ->
    length c = length m + tag_len /\ dec c ad npub secret = (0%Z, m).

(** A successful detached encryption stores [len(m)] bytes of ciphertext
    and a tag of [tag_len] bytes, and detached decryption inverts it. *)
Definition detached_inverse (tag_len : nat) (valid : bytes -> bytes -> Prop)
    (enc : bytes -> option bytes -> bytes -> bytes -> Z * (bytes * bytes))
    (dec : bytes -> bytes -> option bytes -> bytes -> bytes -> Z * bytes)
    : Prop :=
  forall m ad npub secret c mac,
    valid npub secret ->
    enc m ad npub secret = (0%Z, (c, mac)) ->
    length c = length m /\ length mac = tag_len /\
    dec c mac ad npub secret = (0%Z, m).

(** The combined entry point stores what the detached one computes, in the
    layout [ciphertext || tag]. *)
Definition combined_is_detached (valid : bytes -> bytes -> Prop)
    (enc : bytes -> option bytes -> bytes -> bytes -> Z * bytes)
    (enc_detached :
       bytes -> option bytes -> bytes -> bytes -> Z * (bytes * bytes))
    : Prop :=
  forall m ad npub secret,
    valid npub secret ->
    enc m ad npub secret
    = (let '(rc, (c, mac)) := enc_detached m ad npub secret in
       (rc, c ++ mac)).

(** A successful detached encryption stores [len(m)] bytes of ciphertext
    and [tag_len] bytes of tag. *)
Definition detached_lengths (tag_len : nat) (valid : bytes -> bytes -> Prop)
    (enc : bytes -> option bytes -> bytes -> bytes -> Z * (bytes * bytes))
    : Prop :=
  forall m ad npub secret c mac,
    valid npub secret ->
    enc m ad npub secret = (0%Z, (c, mac)) ->
    length c = length m /\ length mac = tag_len.

Definition afternm_round_trip (lib : Sodium) : Prop :=
  combined_inverse crypto_aead_aes256gcm_ABYTES (valid_afternm lib)
    (lib_aes256gcm_encrypt_afternm lib) (lib_aes256gcm_decrypt_afternm lib).

Definition afternm_detached_round_trip (lib : Sodium) : Prop :=
  detached_inverse crypto_aead_aes256gcm_ABYTES (valid_afternm lib)
    (lib_aes256gcm_encrypt_detached_afternm lib)
    (lib_aes256gcm_decrypt_detached_afternm lib).

Definition afternm_layout (lib : Sodium) : Prop :=
  combined_is_detached (valid_afternm lib)
    (lib_aes256gcm_encrypt_afternm lib)
    (lib_aes256gcm_encrypt_detached_afternm lib).

Definition afternm_detached_lengths (lib : Sodium) : Prop :=
  detached_lengths crypto_aead_aes256gcm_ABYTES (valid_afternm lib)
    (lib_aes256gcm_encrypt_detached_afternm lib).

Definition key_detached_lengths (lib : Sodium) (a : algorithm) : Prop :=
  detached_lengths (ABYTES a) (valid_key a) (lib_encrypt_detached lib a).

Definition key_round_trip (lib : Sodium) (a : algorithm) : Prop :=
  combined_inverse (ABYTES a) (valid_key a)
    (lib_encrypt lib a) (lib_decrypt lib a).

Definition key_detached_round_trip (lib : Sodium) (a : algorithm) : Prop :=
  detached_inverse (ABYTES a) (valid_key a)
    (lib_encrypt_detached lib a) (lib_decrypt_detached lib a).

Definition key_layout (lib : Sodium) (a : algorithm) : Prop :=
  combined_is_detached (valid_key a)
    (lib_encrypt lib a) (lib_encrypt_detached lib a).

(** Key expansion always returns 0. *)
Definition beforenm_returns_0 (lib : Sodium) : Prop :=
  forall key, fst (lib_aes256gcm_beforenm lib key) = 0%Z.

(** Key expansion fills the whole state. *)
Definition beforenm_fills_state (lib : Sodium) : Prop :=
  forall key,
    length key = crypto_aead_aes256gcm_KEYBYTES ->
    length (snd (lib_aes256gcm_beforenm lib key))
    = lib_aes256gcm_statebytes lib.

(** The raw-key entry points of AES-256-GCM expand the key and continue as
    the precomputed ones. *)
Definition precompute_agrees (lib : Sodium) : Prop :=
  forall key input ad npub,
    length key = crypto_aead_aes256gcm_KEYBYTES ->
    length npub = crypto_aead_aes256gcm_NPUBBYTES ->
    let ctx := snd (lib_aes256gcm_beforenm lib key) in
    lib_encrypt lib aes256gcm input ad npub key
    = lib_aes256gcm_encrypt_afternm lib input ad npub ctx /\
    lib_decrypt lib aes256gcm input ad npub key
    = lib_aes256gcm_decrypt_afternm lib input ad npub ctx.

(** ** A small implementation of the collaborator

    Not a cipher anyone should use: a keyed byte-wise xor and a tag that
    copies its inputs.  It exists to instantiate the theorems below, and it
    behaves as badly as the contract allows: a failed verification has
    already stored the plaintext in the output buffer. *)
Module Toy.

Definition xor_byte (a b : byte) : byte :=
  let '(a0, (a1, (a2, (a3, (a4, (a5, (a6, a7))))))) := to_bits a in
  let '(b0, (b1, (b2, (b3, (b4, (b5, (b6, b7))))))) := to_bits b in
  of_bits (xorb a0 b0, (xorb a1 b1, (xorb a2 b2, (xorb a3 b3,
          (xorb a4 b4, (xorb a5 b5, (xorb a6 b6, xorb a7 b7))))))).

Definition keystream (npub secret : bytes) : byte :=
  xor_byte (hd x00 npub) (hd x00 secret).

Definition cipher (m npub secret : bytes) : bytes :=
  map (xor_byte (keystream npub secret)) m.

Definition ad_bytes (ad : option bytes) : bytes :=
  match ad with Some data => data | None => [] end.

Definition tag (m : bytes) (ad : option bytes) (npub secret : bytes)
    : bytes :=
  firstn 16 (rev m ++ ad_bytes ad ++ npub ++ secret ++ repeat x00 16).

Fixpoint bytes_eqb (a b : bytes) : bool :=
  match a, b with
  | [], [] => true
  | x :: a', y :: b' => Byte.eqb x y && bytes_eqb a' b'
  | _, _ => false
  end.

Definition encrypt_detached (m : bytes) (ad : option bytes)
    (npub secret : bytes) : Z * (bytes * bytes) :=
  (0%Z, (cipher m npub secret, tag m ad npub secret)).

Definition decrypt_detached (c mac : bytes) (ad : option bytes)
    (npub secret : bytes) : Z * bytes :=
  let m := cipher c npub secret in
  if bytes_eqb mac (tag m ad npub secret) then (0%Z, m) else ((-1)%Z, m).

Definition encrypt (m : bytes) (ad : option bytes) (npub secret : bytes)
    : Z * bytes :=
  let '(rc, (c, mac)) := encrypt_detached m ad npub secret in
  (rc, c ++ mac).

Definition decrypt (c : bytes) (ad : option bytes) (npub secret : bytes)
    : Z * bytes :=
  let n := length c - 16 in
  decrypt_detached (firstn n c) (skipn n c) ad npub secret.

Definition statebytes : nat := 64.

Definition beforenm (key : bytes) : Z * bytes := (0%Z, key ++ rev key).

(** [available] is what [crypto_aead_aes256gcm_is_available()] returns. *)
Definition sodium (available : Z) : Sodium := {|
  lib_aes256gcm_is_available := available;
  lib_aes256gcm_statebytes := statebytes;
  lib_aes256gcm_beforenm := beforenm;
  lib_aes256gcm_encrypt_afternm := encrypt;
  lib_aes256gcm_decrypt_afternm := decrypt;
  lib_aes256gcm_encrypt_detached_afternm := encrypt_detached;
  lib_aes256gcm_decrypt_detached_afternm := decrypt_detached;
  lib_encrypt := fun a m ad npub k =>
    encrypt m ad npub (snd (beforenm k));
  lib_decrypt := fun a c ad npub k =>
    decrypt c ad npub (snd (beforenm k));
  lib_encrypt_detached := fun a m ad npub k =>
    encrypt_detached m ad npub (snd (beforenm k));
  lib_decrypt_detached := fun a c mac ad npub k =>
    decrypt_detached c mac ad npub (snd (beforenm k))
|}.

(** The same library with a fault on the encrypt side: every encryption
    stores two bytes of ciphertext, no tag, and reports failure. *)
Definition faulty : Sodium := {|
  lib_aes256gcm_is_available := 1;
  lib_aes256gcm_statebytes := statebytes;
  lib_aes256gcm_beforenm := beforenm;
  lib_aes256gcm_encrypt_afternm := fun m ad npub ctx =>
    ((-1)%Z, firstn 2 (cipher m npub ctx));
  lib_aes256gcm_decrypt_afternm := decrypt;
  lib_aes256gcm_encrypt_detached_afternm := fun m ad npub ctx =>
    ((-1)%Z, (firstn 2 (cipher m npub ctx), []));
  lib_aes256gcm_decrypt_detached_afternm := decrypt_detached;
  lib_encrypt := fun a m ad npub k =>
    ((-1)%Z, firstn 2 (cipher m npub k));
  lib_decrypt := fun a c ad npub k =>
    decrypt c ad npub (snd (beforenm k));
  lib_encrypt_detached := fun a m ad npub k =>
    ((-1)%Z, (firstn 2 (cipher m npub k), []));
  lib_decrypt_detached := fun a c mac ad npub k =>
    decrypt_detached c mac ad npub (snd (beforenm k))
|}.

(** The same library with a fault on the decrypt side: every decryption
    reports success and stores the first two bytes of the plaintext only. *)
Definition truncating : Sodium := {|
  lib_aes256gcm_is_available := 1;
  lib_aes256gcm_statebytes := statebytes;
  lib_aes256gcm_beforenm := beforenm;
  lib_aes256gcm_encrypt_afternm := encrypt;
  lib_aes256gcm_decrypt_afternm := fun c ad npub ctx =>
    (0%Z, firstn 2 (snd (decrypt c ad npub ctx)));
  lib_aes256gcm_encrypt_detached_afternm := encrypt_detached;
  lib_aes256gcm_decrypt_detached_afternm := fun c mac ad npub ctx =>
    (0%Z, firstn 2 (snd (decrypt_detached c mac ad npub ctx)));
  lib_encrypt := fun a m ad npub k =>
    encrypt m ad npub (snd (beforenm k));
  lib_decrypt := fun a c ad npub k =>
    decrypt c ad npub (snd (beforenm k));
  lib_encrypt_detached := fun a m ad npub k =>
    encrypt_detached m ad npub (snd (beforenm k));
  lib_decrypt_detached := fun a c mac ad npub k =>
    decrypt_detached c mac ad npub (snd (beforenm k))
|}.

(** Fresh allocations are full of somebody else's bytes. *)
Definition uninit (slot i : nat) : byte :=
  if Nat.even (slot + i) then xaa else x55.

(** Sample inputs. *)
Definition key : bytes := repeat x11 32.
Definition nonce : bytes := repeat x22 12.
Definition state : bytes := snd (beforenm key).
Definition message : bytes := [x68; x65; x6c; x6c; x6f].
Definition metadata : bytes := [x6d; x64].

Definition nonce_for (a : algorithm) : bytes := repeat x22 (NPUBBYTES a).

(** The ciphertext of [message] followed by a tag nobody computed. *)
Definition forged : bytes := cipher message nonce state ++ repeat x00 16.

(** What combined encryption of [message] stores. *)
Definition sealed : bytes :=
  snd (encrypt message (Some metadata) nonce state).

(** The four arguments of a combined or detached encrypt call. *)
Definition encrypt_args (secret : bytes) : list value :=
  [Buffer message; Buffer metadata; Buffer nonce; Buffer secret].

End Toy.

(** * Proofs *)

(** ** Running a method, one macro at a time *)

Lemma bind_ret {A B} (a : A) (k : A -> M B) : bind (ret a) k = k a.
Proof. unfold bind, ret. destruct (k a) as [t r]. reflexivity. Qed.

Lemma bind_throw {A B} kind message (k : A -> M B) :
  bind (throw kind message) k = throw kind message.
Proof. reflexivity. Qed.

Lemma bind_emit {B} (e : event) (k : unit -> M B) :
  bind (emit e) k = (e :: trace (k tt), outcome (k tt)).
Proof. unfold bind, emit, trace, outcome. destruct (k tt). reflexivity. Qed.

Lemma bind_assoc {A B C} (c : M A) (f : A -> M B) (g : B -> M C) :
  bind (bind c f) g = bind c (fun a => bind (f a) g).
Proof.
  destruct c as [t [a | kind message]]; [| reflexivity].
  unfold bind. destruct (f a) as [t1 [b | kind message]].
  - destruct (g b) as [t2 r]. now rewrite app_assoc.
  - reflexivity.
Qed.

Lemma optional_buffer_ad_value ad : optional_buffer (ad_value ad) = ad.
Proof. now destruct ad. Qed.

Section Stepping.

Variable lib : Sodium.
Variable uninit : nat -> nat -> byte.
Variable B : Type.

Lemma run_ARGS info n message (k : unit -> M B) :
  bind (ARGS info n message) k
  = if length info <? n then throw InvalidArgument message else k tt.
Proof.
  unfold ARGS. destruct (length info <? n).
  - apply bind_throw.
  - apply bind_ret.
Qed.

Lemma run_ARGS_enough info n message (k : unit -> M B) :
  n <= length info -> bind (ARGS info n message) k = k tt.
Proof.
  intros H. rewrite run_ARGS. now rewrite (proj2 (Nat.ltb_ge _ _) H).
Qed.

Lemma run_ARG_TO_UCHAR_BUFFER info i NAME (k : bytes -> M B) :
  bind (ARG_TO_UCHAR_BUFFER info i NAME) k
  = match nth i info Undefined with
    | Buffer data => k data
    | _ => throw InvalidArgument
             ("argument " ++ NAME ++ " must be a buffer")%string
    end.
Proof.
  unfold ARG_TO_UCHAR_BUFFER.
  destruct (nth i info Undefined); try apply bind_throw. apply bind_ret.
Qed.

Lemma run_ARG_TO_UCHAR_BUFFER_OR_NULL info i (k : option bytes -> M B) :
  bind (ARG_TO_UCHAR_BUFFER_OR_NULL info i) k
  = k (optional_buffer (nth i info Undefined)).
Proof.
  unfold ARG_TO_UCHAR_BUFFER_OR_NULL.
  destruct (nth i info Undefined); apply bind_ret.
Qed.

Lemma run_ARG_TO_UCHAR_BUFFER_LEN info i NAME n (k : bytes -> M B) :
  bind (ARG_TO_UCHAR_BUFFER_LEN info i NAME (ret n)) k
  = match nth i info Undefined with
    | Buffer data =>
        if length data =? n then k data
        else throw InvalidLength
               ("argument " ++ NAME ++ " must be " ++ decimal n
                  ++ " bytes long")%string
    | _ => throw InvalidArgument
             ("argument " ++ NAME ++ " must be a buffer")%string
    end.
Proof.
  unfold ARG_TO_UCHAR_BUFFER_LEN.
  rewrite bind_assoc, run_ARG_TO_UCHAR_BUFFER.
  destruct (nth i info Undefined); try reflexivity.
  rewrite bind_assoc, bind_ret.
  destruct (length data =? n); [apply bind_ret | apply bind_throw].
Qed.

Lemma run_statebytes (k : nat -> M B) :
  bind (crypto_aead_aes256gcm_statebytes lib) k
  = (statebytes_call :: trace (k (lib_aes256gcm_statebytes lib)),
     outcome (k (lib_aes256gcm_statebytes lib))).
Proof.
  unfold crypto_aead_aes256gcm_statebytes.
  rewrite bind_assoc, bind_emit. now rewrite bind_ret.
Qed.

Lemma run_ARG_TO_UCHAR_BUFFER_LEN_statebytes info i NAME
    (k : bytes -> M B) :
  bind (ARG_TO_UCHAR_BUFFER_LEN info i NAME
          (crypto_aead_aes256gcm_statebytes lib)) k
  = match nth i info Undefined with
    | Buffer data =>
        if length data =? lib_aes256gcm_statebytes lib
        then (statebytes_call :: trace (k data), outcome (k data))
        else ([statebytes_call],
              Thrown InvalidLength
                ("argument " ++ NAME ++ " must be "
                   ++ decimal (lib_aes256gcm_statebytes lib)
                   ++ " bytes long")%string)
    | _ => throw InvalidArgument
             ("argument " ++ NAME ++ " must be a buffer")%string
    end.
Proof.
  unfold ARG_TO_UCHAR_BUFFER_LEN.
  rewrite bind_assoc, run_ARG_TO_UCHAR_BUFFER.
  destruct (nth i info Undefined); try reflexivity.
  rewrite bind_assoc, run_statebytes.
  destruct (length data =? lib_aes256gcm_statebytes lib).
  - now rewrite bind_ret.
  - reflexivity.
Qed.

Lemma run_call1 ep out r (k : Z * bytes -> M B) :
  bind (call1 ep out r) k
  = (Call ep [out] (fst r) [store out (snd r)]
       :: trace (k (fst r, store out (snd r))),
     outcome (k (fst r, store out (snd r)))).
Proof.
  unfold call1. cbv zeta. rewrite bind_assoc, bind_emit. now rewrite bind_ret.
Qed.

Lemma run_call2 ep out1 out2 r (k : Z * (bytes * bytes) -> M B) :
  let out1' := store out1 (fst (snd r)) in
  let out2' := store out2 (snd (snd r)) in
  bind (call2 ep out1 out2 r) k
  = (Call ep [out1; out2] (fst r) [out1'; out2']
       :: trace (k (fst r, (out1', out2'))),
     outcome (k (fst r, (out1', out2')))).
Proof.
  unfold call2. cbv zeta. rewrite bind_assoc, bind_emit. now rewrite bind_ret.
Qed.

End Stepping.

Ltac step :=
  first
    [ rewrite run_ARGS
    | rewrite run_ARG_TO_UCHAR_BUFFER_LEN_statebytes
    | rewrite run_ARG_TO_UCHAR_BUFFER_LEN
    | rewrite run_ARG_TO_UCHAR_BUFFER_OR_NULL
    | rewrite run_ARG_TO_UCHAR_BUFFER
    | rewrite run_statebytes
    | rewrite run_call1
    | rewrite run_call2 ];
  cbv beta.

Lemma rejected_throw kind message : rejected (throw kind message).
Proof.
  split; [now exists kind, message | intros e []].
Qed.

Lemma rejected_after_statebytes kind message :
  rejected ([statebytes_call], Thrown kind message).
Proof.
  split; [now exists kind, message |].
  intros e [<- | []]. reflexivity.
Qed.

(** ** Memory facts *)

Lemma NEW_BUFFER_AND_PTR_length uninit slot size :
  length (NEW_BUFFER_AND_PTR uninit slot size) = size.
Proof. unfold NEW_BUFFER_AND_PTR. now rewrite length_map, length_seq. Qed.

Lemma store_length buf written : length (store buf written) = length buf.
Proof.
  unfold store. rewrite length_firstn, length_app, length_skipn. lia.
Qed.

Lemma store_prefix buf written :
  length written <= length buf ->
  store buf written = written ++ skipn (length written) buf.
Proof.
  intros H. unfold store. apply firstn_all2.
  rewrite length_app, length_skipn. lia.
Qed.

Lemma store_whole buf written :
  length written = length buf -> store buf written = written.
Proof.
  intros H. rewrite store_prefix by lia.
  rewrite skipn_all2 by lia. apply app_nil_r.
Qed.

Lemma sodium_memzero_whole buf :
  sodium_memzero buf (length buf) = repeat x00 (length buf).
Proof. unfold sodium_memzero. apply store_whole, repeat_length. Qed.

Lemma memzero_new_buffer uninit slot size :
  sodium_memzero (NEW_BUFFER_AND_PTR uninit slot size) size
  = repeat x00 size.
Proof.
  pose proof (sodium_memzero_whole (NEW_BUFFER_AND_PTR uninit slot size)) as H.
  now rewrite NEW_BUFFER_AND_PTR_length in H.
Qed.

(** ** Runs on arguments of valid lengths

    With arguments that pass the validation, a method is its one call of
    the primitive: the trace and the completion in closed form. *)

Ltac run_valid :=
  rewrite ?run_ARGS_enough by (cbn [length]; lia);
  repeat (step;
          cbn [nth];
          rewrite ?optional_buffer_ad_value;
          repeat match goal with
            | H : length ?b = ?n |- context [length ?b =? ?n] =>
                rewrite (proj2 (Nat.eqb_eq (length b) n) H)
            end).

Ltac finish_run :=
  unfold trace, outcome, completed; cbv zeta;
  destruct (fst _ =? 0)%Z; reflexivity.

Section Runs.

Variable lib : Sodium.
Variable uninit : nat -> nat -> byte.

Lemma beforenm_run key :
  length key = crypto_aead_aes256gcm_KEYBYTES ->
  let ctxt0 := NEW_BUFFER_AND_PTR uninit 0 (lib_aes256gcm_statebytes lib) in
  let res := lib_aes256gcm_beforenm lib key in
  crypto_aead_aes256gcm_beforenm lib uninit [Buffer key]
  = ([statebytes_call;
      Call ep_beforenm [ctxt0] (fst res) [store ctxt0 (snd res)]],
     completed (fst res) (Buffer (store ctxt0 (snd res)))).
Proof.
  intros Hk. unfold crypto_aead_aes256gcm_beforenm. run_valid. finish_run.
Qed.

Lemma encrypt_afternm_run m ad npub ctx :
  length npub = crypto_aead_aes256gcm_NPUBBYTES ->
  length ctx = lib_aes256gcm_statebytes lib ->
  let c0 := repeat x00 (crypto_aead_aes256gcm_ABYTES + length m) in
  let res := lib_aes256gcm_encrypt_afternm lib m ad npub ctx in
  crypto_aead_aes256gcm_encrypt_afternm lib uninit
    [Buffer m; ad_value ad; Buffer npub; Buffer ctx]
  = ([statebytes_call;
      Call ep_encrypt_afternm [c0] (fst res) [store c0 (snd res)]],
     completed (fst res) (Buffer (store c0 (snd res)))).
Proof.
  intros Hn Hx. unfold crypto_aead_aes256gcm_encrypt_afternm. run_valid.
  rewrite memzero_new_buffer. finish_run.
Qed.

Lemma decrypt_afternm_run c ad npub ctx :
  crypto_aead_aes256gcm_ABYTES <= length c ->
  length npub = crypto_aead_aes256gcm_NPUBBYTES ->
  length ctx = lib_aes256gcm_statebytes lib ->
  let m0 :=
    NEW_BUFFER_AND_PTR uninit 0 (length c - crypto_aead_aes256gcm_ABYTES) in
  let res := lib_aes256gcm_decrypt_afternm lib c ad npub ctx in
  crypto_aead_aes256gcm_decrypt_afternm lib uninit
    [Buffer c; ad_value ad; Buffer npub; Buffer ctx]
  = ([statebytes_call;
      Call ep_decrypt_afternm [m0] (fst res) [store m0 (snd res)]],
     completed (fst res) (Buffer (store m0 (snd res)))).
Proof.
  intros Hc Hn Hx. unfold crypto_aead_aes256gcm_decrypt_afternm.
  rewrite run_ARGS_enough by (cbn [length]; lia).
  step. cbn [nth]. rewrite (proj2 (Nat.ltb_ge _ _) Hc).
  run_valid. finish_run.
Qed.

Lemma encrypt_detached_afternm_run m ad npub ctx :
  length npub = crypto_aead_aes256gcm_NPUBBYTES ->
  length ctx = lib_aes256gcm_statebytes lib ->
  let c0 := NEW_BUFFER_AND_PTR uninit 0 (length m) in
  let mac0 := NEW_BUFFER_AND_PTR uninit 1 crypto_aead_aes256gcm_ABYTES in
  let res := lib_aes256gcm_encrypt_detached_afternm lib m ad npub ctx in
  let c := store c0 (fst (snd res)) in
  let mac := store mac0 (snd (snd res)) in
  crypto_aead_aes256gcm_encrypt_detached_afternm lib uninit
    [Buffer m; ad_value ad; Buffer npub; Buffer ctx]
  = ([statebytes_call;
      Call ep_encrypt_detached_afternm [c0; mac0] (fst res) [c; mac]],
     completed (fst res)
       (Object [("cipherText", Buffer c); ("mac", Buffer mac)])).
Proof.
  intros Hn Hx. unfold crypto_aead_aes256gcm_encrypt_detached_afternm.
  run_valid. finish_run.
Qed.

Lemma decrypt_detached_afternm_run c mac ad npub ctx :
  length mac = crypto_aead_aes256gcm_ABYTES ->
  length npub = crypto_aead_aes256gcm_NPUBBYTES ->
  length ctx = lib_aes256gcm_statebytes lib ->
  let m0 := NEW_BUFFER_AND_PTR uninit 0 (length c) in
  let res := lib_aes256gcm_decrypt_detached_afternm lib c mac ad npub ctx in
  crypto_aead_aes256gcm_decrypt_detached_afternm lib uninit
    [Buffer c; Buffer mac; ad_value ad; Buffer npub; Buffer ctx]
  = ([statebytes_call;
      Call ep_decrypt_detached_afternm [m0] (fst res) [store m0 (snd res)]],
     completed (fst res) (Buffer (store m0 (snd res)))).
Proof.
  intros Hm Hn Hx. unfold crypto_aead_aes256gcm_decrypt_detached_afternm.
  run_valid. finish_run.
Qed.

Lemma encrypt_run a m ad npub k :
  length npub = NPUBBYTES a ->
  length k = KEYBYTES a ->
  let c0 := repeat x00 (ABYTES a + length m) in
  let res := lib_encrypt lib a m ad npub k in
  crypto_aead_encrypt lib uninit a
    [Buffer m; ad_value ad; Buffer npub; Buffer k]
  = ([Call (ep_encrypt a) [c0] (fst res) [store c0 (snd res)]],
     completed (fst res) (Buffer (store c0 (snd res)))).
Proof.
  intros Hn Hk. unfold crypto_aead_encrypt. run_valid.
  rewrite memzero_new_buffer. finish_run.
Qed.

Lemma decrypt_run a c ad npub k :
  ABYTES a <= length c ->
  length npub = NPUBBYTES a ->
  length k = KEYBYTES a ->
  let m0 := NEW_BUFFER_AND_PTR uninit 0 (length c - ABYTES a) in
  let res := lib_decrypt lib a c ad npub k in
  crypto_aead_decrypt lib uninit a
    [Buffer c; ad_value ad; Buffer npub; Buffer k]
  = ([Call (ep_decrypt a) [m0] (fst res) [store m0 (snd res)]],
     completed (fst res) (Buffer (store m0 (snd res)))).
Proof.
  intros Hc Hn Hk. unfold crypto_aead_decrypt.
  rewrite run_ARGS_enough by (cbn [length]; lia).
  step. cbn [nth]. rewrite (proj2 (Nat.ltb_ge _ _) Hc).
  run_valid. finish_run.
Qed.

Lemma encrypt_detached_run a m ad npub k :
  length npub = NPUBBYTES a ->
  length k = KEYBYTES a ->
  let c0 := NEW_BUFFER_AND_PTR uninit 0 (length m) in
  let mac0 := NEW_BUFFER_AND_PTR uninit 1 (ABYTES a) in
  let res := lib_encrypt_detached lib a m ad npub k in
  let c := store c0 (fst (snd res)) in
  let mac := store mac0 (snd (snd res)) in
  crypto_aead_encrypt_detached lib uninit a
    [Buffer m; ad_value ad; Buffer npub; Buffer k]
  = ([Call (ep_encrypt_detached a) [c0; mac0] (fst res) [c; mac]],
     completed (fst res)
       (Object [("cipherText", Buffer c); ("mac", Buffer mac)])).
Proof.
  intros Hn Hk. unfold crypto_aead_encrypt_detached. run_valid. finish_run.
Qed.

Lemma decrypt_detached_run a c mac ad npub k :
  length mac = ABYTES a ->
  length npub = NPUBBYTES a ->
  length k = KEYBYTES a ->
  let m0 := NEW_BUFFER_AND_PTR uninit 0 (length c) in
  let res := lib_decrypt_detached lib a c mac ad npub k in
  crypto_aead_decrypt_detached lib uninit a
    [Buffer c; Buffer mac; ad_value ad; Buffer npub; Buffer k]
  = ([Call (ep_decrypt_detached a) [m0] (fst res) [store m0 (snd res)]],
     completed (fst res) (Buffer (store m0 (snd res)))).
Proof.
  intros Hm Hn Hk. unfold crypto_aead_decrypt_detached. run_valid. finish_run.
Qed.

End Runs.
(** ** Runs on arbitrary arguments

    Whatever the arguments are, a decrypt method either stops in the
    validation or is the one call of the primitive on the decoded
    arguments. *)

Ltac reject := solve [left; apply rejected_throw
                     | left; apply rejected_after_statebytes].

Section Shapes.

Variable lib : Sodium.
Variable uninit : nat -> nat -> byte.

Lemma decrypt_afternm_shape info :
  let r := crypto_aead_aes256gcm_decrypt_afternm lib uninit info in
  rejected r \/
  exists c npub ctx,
    nth 0 info Undefined = Buffer c /\
    nth 2 info Undefined = Buffer npub /\
    nth 3 info Undefined = Buffer ctx /\
    crypto_aead_aes256gcm_ABYTES <= length c /\
    length npub = crypto_aead_aes256gcm_NPUBBYTES /\
    length ctx = lib_aes256gcm_statebytes lib /\
    let ad := optional_buffer (nth 1 info Undefined) in
    let m0 :=
      NEW_BUFFER_AND_PTR uninit 0
        (length c - crypto_aead_aes256gcm_ABYTES) in
    let res := lib_aes256gcm_decrypt_afternm lib c ad npub ctx in
    r = ([statebytes_call;
          Call ep_decrypt_afternm [m0] (fst res) [store m0 (snd res)]],
         completed (fst res) (Buffer (store m0 (snd res)))).
Proof.
  unfold crypto_aead_aes256gcm_decrypt_afternm.
  step. destruct (length info <? 4); [reject |].
  step. destruct (nth 0 info Undefined) as [| | |c|]; try reject.
  destruct (length c <? crypto_aead_aes256gcm_ABYTES) eqn:Hc; [reject |].
  apply Nat.ltb_ge in Hc.
  step. step. destruct (nth 2 info Undefined) as [| | |npub|]; try reject.
  destruct (length npub =? crypto_aead_aes256gcm_NPUBBYTES) eqn:Hn;
    [| reject].
  apply Nat.eqb_eq in Hn.
  step. destruct (nth 3 info Undefined) as [| | |ctx|]; try reject.
  destruct (length ctx =? lib_aes256gcm_statebytes lib) eqn:Hx; [| reject].
  apply Nat.eqb_eq in Hx.
  right. exists c, npub, ctx. repeat (split; [assumption || reflexivity |]).
  cbv zeta. step. finish_run.
Qed.

Lemma decrypt_shape a info :
  let r := crypto_aead_decrypt lib uninit a info in
  rejected r \/
  exists c npub k,
    nth 0 info Undefined = Buffer c /\
    nth 2 info Undefined = Buffer npub /\
    nth 3 info Undefined = Buffer k /\
    ABYTES a <= length c /\
    length npub = NPUBBYTES a /\
    length k = KEYBYTES a /\
    let ad := optional_buffer (nth 1 info Undefined) in
    let m0 := NEW_BUFFER_AND_PTR uninit 0 (length c - ABYTES a) in
    let res := lib_decrypt lib a c ad npub k in
    r = ([Call (ep_decrypt a) [m0] (fst res) [store m0 (snd res)]],
         completed (fst res) (Buffer (store m0 (snd res)))).
Proof.
  unfold crypto_aead_decrypt.
  step. destruct (length info <? 4); [reject |].
  step. destruct (nth 0 info Undefined) as [| | |c|]; try reject.
  destruct (length c <? ABYTES a) eqn:Hc; [reject |].
  apply Nat.ltb_ge in Hc.
  step. step. destruct (nth 2 info Undefined) as [| | |npub|]; try reject.
  destruct (length npub =? NPUBBYTES a) eqn:Hn; [| reject].
  apply Nat.eqb_eq in Hn.
  step. destruct (nth 3 info Undefined) as [| | |k|]; try reject.
  destruct (length k =? KEYBYTES a) eqn:Hk; [| reject].
  apply Nat.eqb_eq in Hk.
  right. exists c, npub, k. repeat (split; [assumption || reflexivity |]).
  cbv zeta. step. finish_run.
Qed.

Lemma decrypt_detached_afternm_shape info :
  let r := crypto_aead_aes256gcm_decrypt_detached_afternm lib uninit info in
  rejected r \/
  exists c mac npub ctx,
    nth 0 info Undefined = Buffer c /\
    nth 1 info Undefined = Buffer mac /\
    nth 3 info Undefined = Buffer npub /\
    nth 4 info Undefined = Buffer ctx /\
    length mac = crypto_aead_aes256gcm_ABYTES /\
    length npub = crypto_aead_aes256gcm_NPUBBYTES /\
    length ctx = lib_aes256gcm_statebytes lib /\
    let ad := optional_buffer (nth 2 info Undefined) in
    let m0 := NEW_BUFFER_AND_PTR uninit 0 (length c) in
    let res :=
      lib_aes256gcm_decrypt_detached_afternm lib c mac ad npub ctx in
    r = ([statebytes_call;
          Call ep_decrypt_detached_afternm [m0] (fst res)
            [store m0 (snd res)]],
         completed (fst res) (Buffer (store m0 (snd res)))).
Proof.
  unfold crypto_aead_aes256gcm_decrypt_detached_afternm.
  step. destruct (length info <? 4); [reject |].
  step. destruct (nth 0 info Undefined) as [| | |c|]; try reject.
  step. destruct (nth 1 info Undefined) as [| | |mac|]; try reject.
  destruct (length mac =? crypto_aead_aes256gcm_ABYTES) eqn:Hm; [| reject].
  apply Nat.eqb_eq in Hm.
  step. step. destruct (nth 3 info Undefined) as [| | |npub|]; try reject.
  destruct (length npub =? crypto_aead_aes256gcm_NPUBBYTES) eqn:Hn;
    [| reject].
  apply Nat.eqb_eq in Hn.
  step. destruct (nth 4 info Undefined) as [| | |ctx|]; try reject.
  destruct (length ctx =? lib_aes256gcm_statebytes lib) eqn:Hx; [| reject].
  apply Nat.eqb_eq in Hx.
  right. exists c, mac, npub, ctx.
  repeat (split; [assumption || reflexivity |]).
  cbv zeta. step. finish_run.
Qed.


(** A failed call of the primitive ends every shape the same way. *)
Lemma failed_call_returns_undefined t e0 v e :
  (forall e', In e' t -> is_transform e' = false) ->
  In e (t ++ [e0]) -> is_transform e = true -> ev_rc e <> 0%Z ->
  completed (ev_rc e0) v = Normal Undefined.
Proof.
  intros Ht Hin He Hne.
  apply in_app_or in Hin. destruct Hin as [Hin | [<- | []]].
  - apply Ht in Hin. congruence.
  - unfold completed.
    destruct (ev_rc e0 =? 0)%Z eqn:E; [| reflexivity].
    apply Z.eqb_eq in E. contradiction.
Qed.

End Shapes.
(** ** The small implementation meets the contract *)

Module ToyFacts.

Import Toy.

Lemma xor_byte_involutive k a : xor_byte k (xor_byte k a) = a.
Proof.
  unfold xor_byte.
  destruct (to_bits k) as [k0 [k1 [k2 [k3 [k4 [k5 [k6 k7]]]]]]] eqn:Ek.
  destruct (to_bits a) as [a0 [a1 [a2 [a3 [a4 [a5 [a6 a7]]]]]]] eqn:Ea.
  rewrite to_bits_of_bits.
  rewrite <- !xorb_assoc, !xorb_nilpotent, !xorb_false_l.
  rewrite <- Ea. apply of_bits_to_bits.
Qed.

Lemma cipher_length m npub secret : length (cipher m npub secret) = length m.
Proof. apply length_map. Qed.

Lemma cipher_involutive m npub secret :
  cipher (cipher m npub secret) npub secret = m.
Proof.
  unfold cipher. rewrite map_map.
  rewrite <- (map_id m) at 2. apply map_ext.
  intros a. apply xor_byte_involutive.
Qed.

Lemma tag_length m ad npub secret : length (tag m ad npub secret) = 16.
Proof.
  unfold tag. rewrite length_firstn, !length_app, repeat_length. lia.
Qed.

Lemma bytes_eqb_refl a : bytes_eqb a a = true.
Proof.
  induction a as [| x a IH]; [reflexivity |].
  cbn. rewrite IH, andb_true_r.
  now apply Byte.byte_dec_lb.
Qed.

Lemma detached_round_trip m ad npub secret :
  decrypt_detached (cipher m npub secret) (tag m ad npub secret)
    ad npub secret = (0%Z, m).
Proof.
  unfold decrypt_detached. rewrite cipher_involutive.
  now rewrite bytes_eqb_refl.
Qed.

Lemma combined_round_trip m ad npub secret :
  decrypt (cipher m npub secret ++ tag m ad npub secret) ad npub secret
  = (0%Z, m).
Proof.
  unfold decrypt.
  assert (length (cipher m npub secret ++ tag m ad npub secret) - 16
          = length (cipher m npub secret)) as ->
    by (rewrite length_app, tag_length; lia).
  rewrite firstn_app, Nat.sub_diag, firstn_all, firstn_O, app_nil_r.
  rewrite skipn_app, Nat.sub_diag, skipn_all, skipn_O.
  apply detached_round_trip.
Qed.

Lemma combined_inverse_holds valid secret_of :
  combined_inverse 16 valid
    (fun m ad npub s => encrypt m ad npub (secret_of s))
    (fun c ad npub s => decrypt c ad npub (secret_of s)).
Proof.
  intros m ad npub s c _ H. unfold encrypt, encrypt_detached in H.
  injection H as <-. split.
  - rewrite length_app, cipher_length, tag_length. reflexivity.
  - apply combined_round_trip.
Qed.

Lemma detached_inverse_holds valid secret_of :
  detached_inverse 16 valid
    (fun m ad npub s => encrypt_detached m ad npub (secret_of s))
    (fun c mac ad npub s => decrypt_detached c mac ad npub (secret_of s)).
Proof.
  intros m ad npub s c mac _ H. unfold encrypt_detached in H.
  injection H as <- <-. repeat split.
  - apply cipher_length.
  - apply tag_length.
  - apply detached_round_trip.
Qed.

Lemma afternm_round_trip_holds z : afternm_round_trip (sodium z).
Proof. apply (combined_inverse_holds _ (fun s => s)). Qed.

Lemma afternm_detached_round_trip_holds z :
  afternm_detached_round_trip (sodium z).
Proof. apply (detached_inverse_holds _ (fun s => s)). Qed.

Lemma detached_lengths_holds valid secret_of :
  detached_lengths 16 valid
    (fun m ad npub s => encrypt_detached m ad npub (secret_of s)).
Proof.
  intros m ad npub s c mac _ H. unfold encrypt_detached in H.
  injection H as <- <-. split; [apply cipher_length | apply tag_length].
Qed.

Lemma afternm_detached_lengths_holds z : afternm_detached_lengths (sodium z).
Proof. apply (detached_lengths_holds _ (fun s => s)). Qed.

Lemma key_detached_lengths_holds z a : key_detached_lengths (sodium z) a.
Proof. apply (detached_lengths_holds _ (fun k => snd (beforenm k))). Qed.

Lemma afternm_layout_holds z : afternm_layout (sodium z).
Proof. intros m ad npub s _. reflexivity. Qed.

Lemma key_round_trip_holds z a : key_round_trip (sodium z) a.
Proof. apply (combined_inverse_holds _ (fun k => snd (beforenm k))). Qed.

Lemma key_detached_round_trip_holds z a :
  key_detached_round_trip (sodium z) a.
Proof. apply (detached_inverse_holds _ (fun k => snd (beforenm k))). Qed.

Lemma key_layout_holds z a : key_layout (sodium z) a.
Proof. intros m ad npub s _. reflexivity. Qed.

Lemma beforenm_returns_0_holds z : beforenm_returns_0 (sodium z).
Proof. intros key. reflexivity. Qed.

Lemma beforenm_fills_state_holds z : beforenm_fills_state (sodium z).
Proof.
  intros key Hk. cbn. rewrite length_app, length_rev, Hk. reflexivity.
Qed.

Lemma precompute_agrees_holds z : precompute_agrees (sodium z).
Proof. intros key m ad npub _ _. split; reflexivity. Qed.

End ToyFacts.
(** ** Sample runs *)

Example sample_is_available :
  outcome (crypto_aead_aes256gcm_is_available (Toy.sodium 1) [])
  = Normal (Boolean true) /\
  outcome (crypto_aead_aes256gcm_is_available (Toy.sodium 0) [])
  = Normal (Boolean false) /\
  outcome (crypto_aead_aes256gcm_is_available (Toy.sodium 2) [])
  = Normal (Boolean false).
Proof. repeat split. Qed.

Example sample_too_few_arguments :
  crypto_aead_aes256gcm_encrypt_afternm (Toy.sodium 1) Toy.uninit
    [Buffer Toy.message; Null; Buffer Toy.nonce]
  = ([], Thrown InvalidArgument
           "arguments message, additional data, nonce, and key must be buffers").
Proof. reflexivity. Qed.

Example sample_short_nonce :
  crypto_aead_aes256gcm_encrypt_afternm (Toy.sodium 1) Toy.uninit
    [Buffer Toy.message; Null; Buffer (repeat x22 8); Buffer Toy.state]
  = ([], Thrown InvalidLength "argument npub must be 12 bytes long").
Proof. reflexivity. Qed.

Example sample_short_ciphertext :
  crypto_aead_aes256gcm_decrypt_afternm (Toy.sodium 1) Toy.uninit
    [Buffer [x00]; Null; Buffer Toy.nonce; Buffer Toy.state]
  = ([], Thrown InvalidLength
           "argument cipher text must be at least 16 bytes long").
Proof. reflexivity. Qed.

Example sample_empty_message :
  outcome (crypto_aead_aes256gcm_encrypt_afternm (Toy.sodium 1) Toy.uninit
             [Buffer []; Null; Buffer Toy.nonce; Buffer Toy.state])
  = Normal (Buffer (Toy.tag [] None Toy.nonce Toy.state)).
Proof. reflexivity. Qed.

(** Detached decrypt reads five arguments: ciphertext, tag, additional
    data, nonce, state.  A call with four takes the nonce for the
    additional data and the state for the nonce. *)
Example sample_detached_decrypt_arguments :
  let c := Toy.cipher Toy.message Toy.nonce Toy.state in
  let mac := Toy.tag Toy.message None Toy.nonce Toy.state in
  outcome (crypto_aead_aes256gcm_decrypt_detached_afternm (Toy.sodium 1)
             Toy.uninit
             [Buffer c; Buffer mac; Null; Buffer Toy.nonce;
              Buffer Toy.state])
  = Normal (Buffer Toy.message) /\
  crypto_aead_aes256gcm_decrypt_detached_afternm (Toy.sodium 1) Toy.uninit
    [Buffer c; Buffer mac; Buffer Toy.nonce; Buffer Toy.state]
  = ([], Thrown InvalidLength "argument npub must be 12 bytes long").
Proof. split; reflexivity. Qed.

(** ** Combined decrypt: failures *)

(** C1: whatever the arguments, for the precomputed-state method and for
    the raw-key method of every algorithm: if the call of the primitive made
    by combined decrypt reports a failed verification (a non-zero return
    code), the method returns the [undefined] sentinel, which reads as
    AuthenticationFailed, and hands no bytes to the caller, whatever the
    primitive stored in the output buffer before it failed. *)
Theorem C1_decrypt_auth_failure_returns_nothing lib uninit info e :
  (let r := crypto_aead_aes256gcm_decrypt_afternm lib uninit info in
   In e (trace r) -> is_transform e = true -> ev_rc e <> 0%Z ->
   outcome r = Normal Undefined /\
   decrypt_failure (outcome r) = Some AuthenticationFailed /\
   returned_bytes (outcome r) = None) /\
  (forall a,
     let r := crypto_aead_decrypt lib uninit a info in
     In e (trace r) -> is_transform e = true -> ev_rc e <> 0%Z ->
     outcome r = Normal Undefined /\
     decrypt_failure (outcome r) = Some AuthenticationFailed /\
     returned_bytes (outcome r) = None).
Proof.
  assert (forall r : M value,
             outcome r = Normal Undefined ->
             outcome r = Normal Undefined /\
             decrypt_failure (outcome r) = Some AuthenticationFailed /\
             returned_bytes (outcome r) = None) as Hsentinel
    by (intros r ->; repeat split).
  split; [| intros a]; intros r Hin He Hrc; apply Hsentinel.
  - destruct (decrypt_afternm_shape lib uninit info)
      as [[_ Hrej] | (c & npub & ctx & _ & _ & _ & _ & _ & _ & Hrun)].
    + apply Hrej in Hin. congruence.
    + cbv zeta in Hrun. subst r. rewrite Hrun in Hin |- *.
      refine (failed_call_returns_undefined [statebytes_call] _ _ e _
                Hin He Hrc).
      intros e' [<- | []]. reflexivity.
  - destruct (decrypt_shape lib uninit a info)
      as [[_ Hrej] | (c & npub & k & _ & _ & _ & _ & _ & _ & Hrun)].
    + apply Hrej in Hin. congruence.
    + cbv zeta in Hrun. subst r. rewrite Hrun in Hin |- *.
      refine (failed_call_returns_undefined [] _ _ e _ Hin He Hrc).
      intros e' [].
Qed.

(** The forged ciphertext fails verification after the toy primitive has
    stored the whole plaintext; the caller gets none of it. *)
Lemma C1_witness :
  let info :=
    [Buffer Toy.forged; Buffer Toy.metadata; Buffer Toy.nonce;
     Buffer Toy.state] in
  let r :=
    crypto_aead_aes256gcm_decrypt_afternm (Toy.sodium 1) Toy.uninit info in
  nth 1 (trace r) statebytes_call
  = Call ep_decrypt_afternm [NEW_BUFFER_AND_PTR Toy.uninit 0 5] (-1)
      [Toy.message] /\
  outcome r = Normal Undefined /\
  decrypt_failure (outcome r) = Some AuthenticationFailed /\
  returned_bytes (outcome r) = None.
Proof.
  split; [vm_compute; reflexivity |].
  refine (proj1 (C1_decrypt_auth_failure_returns_nothing (Toy.sodium 1)
                   Toy.uninit _
                   (Call ep_decrypt_afternm
                      [NEW_BUFFER_AND_PTR Toy.uninit 0 5] (-1)
                      [Toy.message])) _ _ _).
  - vm_compute. right. left. reflexivity.
  - reflexivity.
  - discriminate.
Defined.

(** C4: a combined decrypt call whose ciphertext argument is a buffer of
    fewer than [tag_len] bytes fails with InvalidLength, whatever the other
    arguments are, and libsodium is not called at all; for the
    precomputed-state method and for the raw-key method of every
    algorithm. *)
Theorem C4_short_ciphertext_invalid_length lib uninit info c :
  4 <= length info ->
  nth 0 info Undefined = Buffer c ->
  (length c < crypto_aead_aes256gcm_ABYTES ->
   let r := crypto_aead_aes256gcm_decrypt_afternm lib uninit info in
   trace r = [] /\ decrypt_failure (outcome r) = Some InvalidLength) /\
  (forall a,
     length c < ABYTES a ->
     let r := crypto_aead_decrypt lib uninit a info in
     trace r = [] /\ decrypt_failure (outcome r) = Some InvalidLength).
Proof.
  intros Hargs Hc. split; [| intros a]; intros Hshort r; subst r.
  - unfold crypto_aead_aes256gcm_decrypt_afternm.
    rewrite run_ARGS_enough by assumption. step. rewrite Hc.
    rewrite (proj2 (Nat.ltb_lt _ _) Hshort). split; reflexivity.
  - unfold crypto_aead_decrypt.
    rewrite run_ARGS_enough by assumption. step. rewrite Hc.
    rewrite (proj2 (Nat.ltb_lt _ _) Hshort). split; reflexivity.
Qed.

(** A ciphertext of [tag_len - 1] bytes, with every other argument
    unusable. *)
Lemma C4_witness :
  let info := [Buffer (repeat x00 15); Null; Undefined; Boolean true] in
  (let r :=
     crypto_aead_aes256gcm_decrypt_afternm (Toy.sodium 1) Toy.uninit info in
   trace r = [] /\ decrypt_failure (outcome r) = Some InvalidLength) /\
  (let r :=
     crypto_aead_decrypt (Toy.sodium 1) Toy.uninit xchacha20poly1305_ietf
       info in
   trace r = [] /\ decrypt_failure (outcome r) = Some InvalidLength).
Proof.
  intros info.
  assert (4 <= length info) as Hargs by (cbn; lia).
  assert (nth 0 info Undefined = Buffer (repeat x00 15)) as Hc
    by reflexivity.
  destruct (C4_short_ciphertext_invalid_length (Toy.sodium 1) Toy.uninit
              info (repeat x00 15) Hargs Hc) as [Hctx Hkey].
  split.
  - apply Hctx. vm_compute. lia.
  - apply (Hkey xchacha20poly1305_ietf). vm_compute. lia.
Defined.

(** C7: a combined decrypt call on a ciphertext of at least [tag_len]
    bytes, with nonce and state (or key) of the required lengths, on which
    the primitive reports success, returns a plaintext buffer of exactly
    [len(ciphertext) - tag_len] bytes; for the precomputed-state method and
    for the raw-key method of every algorithm. *)
Theorem C7_decrypt_plaintext_length lib uninit c ad npub :
  (forall ctx,
     crypto_aead_aes256gcm_ABYTES <= length c ->
     length npub = crypto_aead_aes256gcm_NPUBBYTES ->
     length ctx = lib_aes256gcm_statebytes lib ->
     fst (lib_aes256gcm_decrypt_afternm lib c ad npub ctx) = 0%Z ->
     exists m,
       outcome (crypto_aead_aes256gcm_decrypt_afternm lib uninit
                  [Buffer c; ad_value ad; Buffer npub; Buffer ctx])
       = Normal (Buffer m) /\
       length m = length c - crypto_aead_aes256gcm_ABYTES) /\
  (forall a k,
     ABYTES a <= length c ->
     length npub = NPUBBYTES a ->
     length k = KEYBYTES a ->
     fst (lib_decrypt lib a c ad npub k) = 0%Z ->
     exists m,
       outcome (crypto_aead_decrypt lib uninit a
                  [Buffer c; ad_value ad; Buffer npub; Buffer k])
       = Normal (Buffer m) /\
       length m = length c - ABYTES a).
Proof.
  split.
  - intros ctx Hc Hn Hx Hrc.
    rewrite decrypt_afternm_run by assumption. cbv zeta.
    rewrite Hrc. eexists. split; [reflexivity |].
    now rewrite store_length, NEW_BUFFER_AND_PTR_length.
  - intros a k Hc Hn Hk Hrc.
    rewrite decrypt_run by assumption. cbv zeta.
    rewrite Hrc. eexists. split; [reflexivity |].
    now rewrite store_length, NEW_BUFFER_AND_PTR_length.
Qed.

Lemma C7_witness :
  exists m,
    outcome (crypto_aead_aes256gcm_decrypt_afternm (Toy.sodium 1) Toy.uninit
               [Buffer Toy.sealed; ad_value (Some Toy.metadata);
                Buffer Toy.nonce; Buffer Toy.state])
    = Normal (Buffer m) /\
    length m = length Toy.sealed - crypto_aead_aes256gcm_ABYTES.
Proof.
  apply (proj1 (C7_decrypt_plaintext_length (Toy.sodium 1) Toy.uninit
                  Toy.sealed (Some Toy.metadata) Toy.nonce)).
  - vm_compute. lia.
  - reflexivity.
  - reflexivity.
  - reflexivity.
Defined.

(** ** Combined encrypt: the output buffer *)

(** C6: a combined encrypt call on a message of any length, with nonce and
    state (or key) of the required lengths, on which the primitive reports
    success, returns one buffer of [len(message) + tag_len] bytes.  Given
    that the primitive's combined entry point stores what its detached one
    computes, that buffer is [ciphertext || tag]: the ciphertext in the
    first [len(message)] bytes and the authentication tag in the final
    [tag_len] bytes.  For the precomputed-state method and for the raw-key
    method of every algorithm. *)
Theorem C6_combined_encrypt_output lib uninit m ad npub :
  (forall ctx,
     length npub = crypto_aead_aes256gcm_NPUBBYTES ->
     length ctx = lib_aes256gcm_statebytes lib ->
     fst (lib_aes256gcm_encrypt_afternm lib m ad npub ctx) = 0%Z ->
     exists out,
       outcome (crypto_aead_aes256gcm_encrypt_afternm lib uninit
                  [Buffer m; ad_value ad; Buffer npub; Buffer ctx])
       = Normal (Buffer out) /\
       length out = length m + crypto_aead_aes256gcm_ABYTES /\
       (afternm_layout lib -> afternm_detached_lengths lib ->
        exists c tag,
          lib_aes256gcm_encrypt_detached_afternm lib m ad npub ctx
          = (0%Z, (c, tag)) /\
          out = c ++ tag /\
          firstn (length m) out = c /\
          skipn (length out - crypto_aead_aes256gcm_ABYTES) out = tag /\
          length tag = crypto_aead_aes256gcm_ABYTES)) /\
  (forall a k,
     length npub = NPUBBYTES a ->
     length k = KEYBYTES a ->
     fst (lib_encrypt lib a m ad npub k) = 0%Z ->
     exists out,
       outcome (crypto_aead_encrypt lib uninit a
                  [Buffer m; ad_value ad; Buffer npub; Buffer k])
       = Normal (Buffer out) /\
       length out = length m + ABYTES a /\
       (key_layout lib a -> key_detached_lengths lib a ->
        exists c tag,
          lib_encrypt_detached lib a m ad npub k = (0%Z, (c, tag)) /\
          out = c ++ tag /\
          firstn (length m) out = c /\
          skipn (length out - ABYTES a) out = tag /\
          length tag = ABYTES a)).
Proof.
  assert (forall tag_len valid enc enc_detached npub' secret,
             valid npub' secret ->
             fst (enc m ad npub' secret) = 0%Z ->
             combined_is_detached valid enc enc_detached ->
             detached_lengths tag_len valid enc_detached ->
             let out :=
               store (repeat x00 (tag_len + length m))
                 (snd (enc m ad npub' secret)) in
             exists c tag,
               enc_detached m ad npub' secret = (0%Z, (c, tag)) /\
               out = c ++ tag /\
               firstn (length m) out = c /\
               skipn (length out - tag_len) out = tag /\
               length tag = tag_len) as Hlayout.
  { intros tag_len valid enc enc_detached npub' secret Hv Hrc Hlay Hlen out.
    specialize (Hlay m ad npub' secret Hv).
    destruct (enc_detached m ad npub' secret) as [rc [c tag]] eqn:E.
    rewrite Hlay in Hrc. cbn in Hrc. subst rc.
    destruct (Hlen m ad npub' secret c tag Hv E) as [Hc Ht].
    assert (out = c ++ tag) as Hout.
    { subst out. rewrite Hlay. cbn [snd]. apply store_whole.
      rewrite length_app, repeat_length. lia. }
    exists c, tag. rewrite Hout. repeat split; try assumption.
    - rewrite <- Hc, firstn_app, Nat.sub_diag, firstn_all, firstn_O.
      apply app_nil_r.
    - rewrite length_app, Ht, Nat.add_sub.
      rewrite skipn_app, Nat.sub_diag, skipn_all, skipn_O. reflexivity. }
  split.
  - intros ctx Hn Hx Hrc.
    rewrite encrypt_afternm_run by assumption. cbv zeta.
    rewrite Hrc. eexists. split; [reflexivity |]. split.
    + rewrite store_length, repeat_length. lia.
    + intros Hlay Hlen.
      apply (Hlayout _ (valid_afternm lib) _ _ npub ctx);
        try assumption. now split.
  - intros a k Hn Hk Hrc.
    rewrite encrypt_run by assumption. cbv zeta.
    rewrite Hrc. eexists. split; [reflexivity |]. split.
    + rewrite store_length, repeat_length. lia.
    + intros Hlay Hlen.
      apply (Hlayout _ (valid_key a) _ _ npub k); try assumption. now split.
Qed.

Lemma C6_witness :
  exists out c tag,
    outcome (crypto_aead_encrypt (Toy.sodium 1) Toy.uninit
               chacha20poly1305
               [Buffer Toy.message; ad_value None;
                Buffer (Toy.nonce_for chacha20poly1305); Buffer Toy.key])
    = Normal (Buffer out) /\
    length out = length Toy.message + ABYTES chacha20poly1305 /\
    lib_encrypt_detached (Toy.sodium 1) chacha20poly1305 Toy.message
      None (Toy.nonce_for chacha20poly1305) Toy.key
    = (0%Z, (c, tag)) /\
    out = c ++ tag /\
    skipn (length out - ABYTES chacha20poly1305) out = tag /\
    length tag = ABYTES chacha20poly1305.
Proof.
  destruct (proj2 (C6_combined_encrypt_output (Toy.sodium 1) Toy.uninit
                     Toy.message None (Toy.nonce_for chacha20poly1305))
              chacha20poly1305 Toy.key
              eq_refl eq_refl eq_refl) as (out & Hout & Hlen & Hlayout).
  destruct (Hlayout (ToyFacts.key_layout_holds 1 chacha20poly1305)
              (ToyFacts.key_detached_lengths_holds 1 chacha20poly1305))
    as (c & tag & Hdet & Hcat & _ & Htag & Htl).
  exists out, c, tag. repeat split; assumption.
Defined.

(** ** Round trip *)

(** The two steps of every combined round trip. *)
Lemma combined_round_trip_steps tag_len valid enc dec m ad npub secret
    (m0 : bytes) :
  combined_inverse tag_len valid enc dec ->
  valid npub secret ->
  fst (enc m ad npub secret) = 0%Z ->
  let c :=
    store (repeat x00 (tag_len + length m)) (snd (enc m ad npub secret)) in
  c = snd (enc m ad npub secret) /\
  tag_len <= length c /\
  (length m0 = length c - tag_len ->
   fst (dec c ad npub secret) = 0%Z /\
   store m0 (snd (dec c ad npub secret)) = m).
Proof.
  intros Hinv Hv Hrc c.
  destruct (enc m ad npub secret) as [rc w] eqn:E.
  cbn in Hrc. subst rc.
  destruct (Hinv m ad npub secret w Hv E) as [Hlen Hdec].
  assert (c = w) as ->.
  { subst c. cbn [snd]. apply store_whole. rewrite repeat_length. lia. }
  split; [reflexivity |]. split; [lia |].
  intros Hm0. rewrite Hdec. split; [reflexivity |].
  cbn [snd]. apply store_whole. lia.
Qed.

(** The two steps of every detached round trip. *)
Lemma detached_round_trip_steps tag_len valid enc dec m ad npub secret
    (c0 mac0 m0 : bytes) :
  detached_inverse tag_len valid enc dec ->
  valid npub secret ->
  fst (enc m ad npub secret) = 0%Z ->
  length c0 = length m ->
  length mac0 = tag_len ->
  let c := store c0 (fst (snd (enc m ad npub secret))) in
  let mac := store mac0 (snd (snd (enc m ad npub secret))) in
  length mac = tag_len /\
  (length m0 = length c ->
   fst (dec c mac ad npub secret) = 0%Z /\
   store m0 (snd (dec c mac ad npub secret)) = m).
Proof.
  intros Hinv Hv Hrc Hc0 Hmac0 c mac.
  destruct (enc m ad npub secret) as [rc [wc wmac]] eqn:E.
  cbn in Hrc. subst rc.
  destruct (Hinv m ad npub secret wc wmac Hv E) as (Hlc & Hlm & Hdec).
  assert (c = wc) as -> by (apply store_whole; cbn; lia).
  assert (mac = wmac) as -> by (apply store_whole; cbn; lia).
  split; [assumption |].
  intros Hm0. rewrite Hdec. split; [reflexivity |].
  cbn [snd]. apply store_whole. lia.
Qed.

Section RoundTripMethods.

Variable lib : Sodium.
Variable uninit : nat -> nat -> byte.
Variables (m : bytes) (ad : option bytes) (npub : bytes).

Lemma afternm_round_trip_methods :
  forall ctx,
   afternm_round_trip lib ->
   length npub = crypto_aead_aes256gcm_NPUBBYTES ->
   length ctx = lib_aes256gcm_statebytes lib ->
   fst (lib_aes256gcm_encrypt_afternm lib m ad npub ctx) = 0%Z ->
   exists c,
     outcome (crypto_aead_aes256gcm_encrypt_afternm lib uninit
                [Buffer m; ad_value ad; Buffer npub; Buffer ctx])
     = Normal (Buffer c) /\
     outcome (crypto_aead_aes256gcm_decrypt_afternm lib uninit
                [Buffer c; ad_value ad; Buffer npub; Buffer ctx])
     = Normal (Buffer m).
Proof.
  intros ctx Hinv Hn Hx Hrc.
  rewrite encrypt_afternm_run by assumption. cbv zeta.
  rewrite Hrc. eexists. split; [reflexivity |].
  edestruct (combined_round_trip_steps _ _ _ _ m ad npub ctx
               (NEW_BUFFER_AND_PTR uninit 0
                  (length (store
                     (repeat x00 (crypto_aead_aes256gcm_ABYTES + length m))
                     (snd (lib_aes256gcm_encrypt_afternm lib m ad npub
                             ctx)))
                   - crypto_aead_aes256gcm_ABYTES))
               Hinv (conj Hn Hx) Hrc) as (_ & Hge & Hdec).
  destruct (Hdec (NEW_BUFFER_AND_PTR_length _ _ _)) as [Hrc' Hm].
  rewrite decrypt_afternm_run by assumption. cbv zeta.
  rewrite Hrc', Hm. reflexivity.
Qed.

Lemma afternm_detached_round_trip_methods :
  forall ctx,
   afternm_detached_round_trip lib ->
   length npub = crypto_aead_aes256gcm_NPUBBYTES ->
   length ctx = lib_aes256gcm_statebytes lib ->
   fst (lib_aes256gcm_encrypt_detached_afternm lib m ad npub ctx) = 0%Z ->
   exists c mac,
     outcome (crypto_aead_aes256gcm_encrypt_detached_afternm lib uninit
                [Buffer m; ad_value ad; Buffer npub; Buffer ctx])
     = Normal (Object [("cipherText", Buffer c); ("mac", Buffer mac)]) /\
     outcome (crypto_aead_aes256gcm_decrypt_detached_afternm lib uninit
                [Buffer c; Buffer mac; ad_value ad; Buffer npub;
                 Buffer ctx])
     = Normal (Buffer m).
Proof.
  intros ctx Hinv Hn Hx Hrc.
  rewrite encrypt_detached_afternm_run by assumption. cbv zeta.
  rewrite Hrc. do 2 eexists. split; [reflexivity |].
  edestruct (detached_round_trip_steps _ _ _ _ m ad npub ctx
               (NEW_BUFFER_AND_PTR uninit 0 (length m))
               (NEW_BUFFER_AND_PTR uninit 1 crypto_aead_aes256gcm_ABYTES)
               (NEW_BUFFER_AND_PTR uninit 0
                  (length (store (NEW_BUFFER_AND_PTR uninit 0 (length m))
                     (fst (snd (lib_aes256gcm_encrypt_detached_afternm
                                  lib m ad npub ctx))))))
               Hinv (conj Hn Hx) Hrc
               (NEW_BUFFER_AND_PTR_length _ _ _)
               (NEW_BUFFER_AND_PTR_length _ _ _)) as (Hmac & Hdec).
  destruct (Hdec (NEW_BUFFER_AND_PTR_length _ _ _)) as [Hrc' Hm].
  rewrite decrypt_detached_afternm_run by assumption. cbv zeta.
  rewrite Hrc', Hm. reflexivity.
Qed.

Lemma key_round_trip_methods :
  forall a k,
   key_round_trip lib a ->
   length npub = NPUBBYTES a ->
   length k = KEYBYTES a ->
   fst (lib_encrypt lib a m ad npub k) = 0%Z ->
   exists c,
     outcome (crypto_aead_encrypt lib uninit a
                [Buffer m; ad_value ad; Buffer npub; Buffer k])
     = Normal (Buffer c) /\
     outcome (crypto_aead_decrypt lib uninit a
                [Buffer c; ad_value ad; Buffer npub; Buffer k])
     = Normal (Buffer m).
Proof.
  intros a k Hinv Hn Hk Hrc.
  rewrite encrypt_run by assumption. cbv zeta.
  rewrite Hrc. eexists. split; [reflexivity |].
  edestruct (combined_round_trip_steps _ _ _ _ m ad npub k
               (NEW_BUFFER_AND_PTR uninit 0
                  (length (store (repeat x00 (ABYTES a + length m))
                     (snd (lib_encrypt lib a m ad npub k)))
                   - ABYTES a))
               Hinv (conj Hn Hk) Hrc) as (_ & Hge & Hdec).
  destruct (Hdec (NEW_BUFFER_AND_PTR_length _ _ _)) as [Hrc' Hm].
  rewrite decrypt_run by assumption. cbv zeta.
  rewrite Hrc', Hm. reflexivity.
Qed.

Lemma key_detached_round_trip_methods :
  forall a k,
   key_detached_round_trip lib a ->
   length npub = NPUBBYTES a ->
   length k = KEYBYTES a ->
   fst (lib_encrypt_detached lib a m ad npub k) = 0%Z ->
   exists c mac,
     outcome (crypto_aead_encrypt_detached lib uninit a
                [Buffer m; ad_value ad; Buffer npub; Buffer k])
     = Normal (Object [("cipherText", Buffer c); ("mac", Buffer mac)]) /\
     outcome (crypto_aead_decrypt_detached lib uninit a
                [Buffer c; Buffer mac; ad_value ad; Buffer npub;
                 Buffer k])
     = Normal (Buffer m).
Proof.
  intros a k Hinv Hn Hk Hrc.
  rewrite encrypt_detached_run by assumption. cbv zeta.
  rewrite Hrc. do 2 eexists. split; [reflexivity |].
  edestruct (detached_round_trip_steps _ _ _ _ m ad npub k
               (NEW_BUFFER_AND_PTR uninit 0 (length m))
               (NEW_BUFFER_AND_PTR uninit 1 (ABYTES a))
               (NEW_BUFFER_AND_PTR uninit 0
                  (length (store (NEW_BUFFER_AND_PTR uninit 0 (length m))
                     (fst (snd (lib_encrypt_detached lib a m ad npub
                                  k))))))
               Hinv (conj Hn Hk) Hrc
               (NEW_BUFFER_AND_PTR_length _ _ _)
               (NEW_BUFFER_AND_PTR_length _ _ _)) as (Hmac & Hdec).
  destruct (Hdec (NEW_BUFFER_AND_PTR_length _ _ _)) as [Hrc' Hm].
  rewrite decrypt_detached_run by assumption. cbv zeta.
  rewrite Hrc', Hm. reflexivity.
Qed.

End RoundTripMethods.

(** C2: for every message (of any length, the empty one included), every
    optional additional data (absent, empty or not) and every nonce and
    state or key of the required lengths, in all four modes (combined and
    detached, precomputed state and raw key of every algorithm): when the
    primitive's encryption reports success, the encrypt method returns its
    output and the decrypt method applied to that output with the same
    additional data, nonce and state or key returns exactly the message.
    The primitive is asked for its own round trip only. *)
Theorem C2_round_trip lib uninit m ad npub :
  (forall ctx,
     afternm_round_trip lib ->
     length npub = crypto_aead_aes256gcm_NPUBBYTES ->
     length ctx = lib_aes256gcm_statebytes lib ->
     fst (lib_aes256gcm_encrypt_afternm lib m ad npub ctx) = 0%Z ->
     exists c,
       outcome (crypto_aead_aes256gcm_encrypt_afternm lib uninit
                  [Buffer m; ad_value ad; Buffer npub; Buffer ctx])
       = Normal (Buffer c) /\
       outcome (crypto_aead_aes256gcm_decrypt_afternm lib uninit
                  [Buffer c; ad_value ad; Buffer npub; Buffer ctx])
       = Normal (Buffer m)) /\
  (forall ctx,
     afternm_detached_round_trip lib ->
     length npub = crypto_aead_aes256gcm_NPUBBYTES ->
     length ctx = lib_aes256gcm_statebytes lib ->
     fst (lib_aes256gcm_encrypt_detached_afternm lib m ad npub ctx) = 0%Z ->
     exists c mac,
       outcome (crypto_aead_aes256gcm_encrypt_detached_afternm lib uninit
                  [Buffer m; ad_value ad; Buffer npub; Buffer ctx])
       = Normal (Object [("cipherText", Buffer c); ("mac", Buffer mac)]) /\
       outcome (crypto_aead_aes256gcm_decrypt_detached_afternm lib uninit
                  [Buffer c; Buffer mac; ad_value ad; Buffer npub;
                   Buffer ctx])
       = Normal (Buffer m)) /\
  (forall a k,
     key_round_trip lib a ->
     length npub = NPUBBYTES a ->
     length k = KEYBYTES a ->
     fst (lib_encrypt lib a m ad npub k) = 0%Z ->
     exists c,
       outcome (crypto_aead_encrypt lib uninit a
                  [Buffer m; ad_value ad; Buffer npub; Buffer k])
       = Normal (Buffer c) /\
       outcome (crypto_aead_decrypt lib uninit a
                  [Buffer c; ad_value ad; Buffer npub; Buffer k])
       = Normal (Buffer m)) /\
  (forall a k,
     key_detached_round_trip lib a ->
     length npub = NPUBBYTES a ->
     length k = KEYBYTES a ->
     fst (lib_encrypt_detached lib a m ad npub k) = 0%Z ->
     exists c mac,
       outcome (crypto_aead_encrypt_detached lib uninit a
                  [Buffer m; ad_value ad; Buffer npub; Buffer k])
       = Normal (Object [("cipherText", Buffer c); ("mac", Buffer mac)]) /\
       outcome (crypto_aead_decrypt_detached lib uninit a
                  [Buffer c; Buffer mac; ad_value ad; Buffer npub;
                   Buffer k])
       = Normal (Buffer m)).
Proof.
  repeat split.
  - apply afternm_round_trip_methods.
  - apply afternm_detached_round_trip_methods.
  - apply key_round_trip_methods.
  - apply key_detached_round_trip_methods.
Qed.

(** The sample message under a precomputed state, and the empty message
    without additional data under a raw XChaCha20 key, detached. *)
Lemma C2_witness :
  (exists c,
     outcome (crypto_aead_aes256gcm_encrypt_afternm (Toy.sodium 1)
                Toy.uninit
                [Buffer Toy.message; ad_value (Some Toy.metadata);
                 Buffer Toy.nonce; Buffer Toy.state])
     = Normal (Buffer c) /\
     outcome (crypto_aead_aes256gcm_decrypt_afternm (Toy.sodium 1)
                Toy.uninit
                [Buffer c; ad_value (Some Toy.metadata);
                 Buffer Toy.nonce; Buffer Toy.state])
     = Normal (Buffer Toy.message)) /\
  (exists c mac,
     outcome (crypto_aead_encrypt_detached (Toy.sodium 1) Toy.uninit
                xchacha20poly1305_ietf
                [Buffer []; ad_value None;
                 Buffer (Toy.nonce_for xchacha20poly1305_ietf);
                 Buffer Toy.key])
     = Normal (Object [("cipherText", Buffer c); ("mac", Buffer mac)]) /\
     outcome (crypto_aead_decrypt_detached (Toy.sodium 1) Toy.uninit
                xchacha20poly1305_ietf
                [Buffer c; Buffer mac; ad_value None;
                 Buffer (Toy.nonce_for xchacha20poly1305_ietf);
                 Buffer Toy.key])
     = Normal (Buffer [])).
Proof.
  split.
  - apply (proj1 (C2_round_trip (Toy.sodium 1) Toy.uninit Toy.message
                    (Some Toy.metadata) Toy.nonce) Toy.state).
    + apply ToyFacts.afternm_round_trip_holds.
    + reflexivity.
    + reflexivity.
    + reflexivity.
  - apply (proj2 (proj2 (proj2
             (C2_round_trip (Toy.sodium 1) Toy.uninit [] None
                (Toy.nonce_for xchacha20poly1305_ietf))))
             xchacha20poly1305_ietf Toy.key).
    + apply ToyFacts.key_detached_round_trip_holds.
    + reflexivity.
    + reflexivity.
    + reflexivity.
Defined.

(** ** Raw key and precomputed state *)

(** C3: for AES-256-GCM, the one algorithm with a precomputed state, and
    every message, additional data, nonce and key of valid lengths: the
    state built by [crypto_aead_aes256gcm_beforenm] from the key makes the
    precomputed-state methods complete exactly as the raw-key methods do,
    on encrypt (byte-identical output) and on decrypt of any ciphertext;
    and what either encrypt method returns, both decrypt methods turn back
    into the message.  The primitive is asked that its raw-key entry
    points expand the key and continue as the precomputed ones. *)
Theorem C3_key_and_state_interchangeable lib uninit key m ad npub :
  beforenm_returns_0 lib ->
  beforenm_fills_state lib ->
  precompute_agrees lib ->
  length key = crypto_aead_aes256gcm_KEYBYTES ->
  length npub = crypto_aead_aes256gcm_NPUBBYTES ->
  exists ctx,
    outcome (crypto_aead_aes256gcm_beforenm lib uninit [Buffer key])
    = Normal (Buffer ctx) /\
    outcome (crypto_aead_encrypt lib uninit aes256gcm
               [Buffer m; ad_value ad; Buffer npub; Buffer key])
    = outcome (crypto_aead_aes256gcm_encrypt_afternm lib uninit
                 [Buffer m; ad_value ad; Buffer npub; Buffer ctx]) /\
    (forall c,
       outcome (crypto_aead_decrypt lib uninit aes256gcm
                  [Buffer c; ad_value ad; Buffer npub; Buffer key])
       = outcome (crypto_aead_aes256gcm_decrypt_afternm lib uninit
                    [Buffer c; ad_value ad; Buffer npub; Buffer ctx])) /\
    (afternm_round_trip lib ->
     fst (lib_aes256gcm_encrypt_afternm lib m ad npub ctx) = 0%Z ->
     exists c,
       outcome (crypto_aead_encrypt lib uninit aes256gcm
                  [Buffer m; ad_value ad; Buffer npub; Buffer key])
       = Normal (Buffer c) /\
       outcome (crypto_aead_aes256gcm_encrypt_afternm lib uninit
                  [Buffer m; ad_value ad; Buffer npub; Buffer ctx])
       = Normal (Buffer c) /\
       outcome (crypto_aead_aes256gcm_decrypt_afternm lib uninit
                  [Buffer c; ad_value ad; Buffer npub; Buffer ctx])
       = Normal (Buffer m) /\
       outcome (crypto_aead_decrypt lib uninit aes256gcm
                  [Buffer c; ad_value ad; Buffer npub; Buffer key])
       = Normal (Buffer m)).
Proof.
  intros H0 Hfill Hagree Hk Hn.
  exists (snd (lib_aes256gcm_beforenm lib key)).
  pose proof (Hfill key Hk) as Hx.
  assert (outcome (crypto_aead_aes256gcm_beforenm lib uninit [Buffer key])
          = Normal (Buffer (snd (lib_aes256gcm_beforenm lib key)))) as Hctx.
  { rewrite beforenm_run by assumption. cbv zeta.
    rewrite H0. unfold outcome, completed. cbn [snd Z.eqb].
    rewrite store_whole; [reflexivity |].
    now rewrite NEW_BUFFER_AND_PTR_length. }
  assert (outcome (crypto_aead_encrypt lib uninit aes256gcm
                     [Buffer m; ad_value ad; Buffer npub; Buffer key])
          = outcome (crypto_aead_aes256gcm_encrypt_afternm lib uninit
                       [Buffer m; ad_value ad; Buffer npub;
                        Buffer (snd (lib_aes256gcm_beforenm lib key))]))
    as Henc.
  { rewrite encrypt_run, encrypt_afternm_run by assumption. cbv zeta.
    destruct (Hagree key m ad npub Hk Hn) as [-> _]. reflexivity. }
  assert (forall c,
             outcome (crypto_aead_decrypt lib uninit aes256gcm
                        [Buffer c; ad_value ad; Buffer npub; Buffer key])
             = outcome (crypto_aead_aes256gcm_decrypt_afternm lib uninit
                          [Buffer c; ad_value ad; Buffer npub;
                           Buffer (snd (lib_aes256gcm_beforenm lib key))]))
    as Hdec.
  { intros c.
    destruct (Nat.lt_ge_cases (length c) crypto_aead_aes256gcm_ABYTES)
      as [Hshort | Hlong].
    - assert (4 <= length [Buffer c; ad_value ad; Buffer npub; Buffer key])
        as Hargs by (cbn; lia).
      unfold crypto_aead_decrypt, crypto_aead_aes256gcm_decrypt_afternm.
      rewrite !run_ARGS_enough by (cbn [length]; lia).
      do 2 step. cbn [nth].
      change (ABYTES aes256gcm) with crypto_aead_aes256gcm_ABYTES.
      rewrite (proj2 (Nat.ltb_lt _ _) Hshort). reflexivity.
    - rewrite decrypt_run, decrypt_afternm_run by assumption. cbv zeta.
      destruct (Hagree key c ad npub Hk Hn) as [_ ->]. reflexivity. }
  repeat split; try assumption.
  intros Hinv Hrc.
  destruct (afternm_round_trip_methods lib uninit m ad npub
              (snd (lib_aes256gcm_beforenm lib key)) Hinv Hn Hx Hrc)
    as (c & Hc & Hm).
  exists c. rewrite Henc, Hdec. repeat split; assumption.
Qed.

Lemma C3_witness :
  exists ctx,
    outcome (crypto_aead_aes256gcm_beforenm (Toy.sodium 1) Toy.uninit
               [Buffer Toy.key])
    = Normal (Buffer ctx) /\
    outcome (crypto_aead_encrypt (Toy.sodium 1) Toy.uninit aes256gcm
               [Buffer Toy.message; ad_value (Some Toy.metadata);
                Buffer Toy.nonce; Buffer Toy.key])
    = outcome (crypto_aead_aes256gcm_encrypt_afternm (Toy.sodium 1)
                 Toy.uninit
                 [Buffer Toy.message; ad_value (Some Toy.metadata);
                  Buffer Toy.nonce; Buffer ctx]) /\
    exists c,
      outcome (crypto_aead_encrypt (Toy.sodium 1) Toy.uninit aes256gcm
                 [Buffer Toy.message; ad_value (Some Toy.metadata);
                  Buffer Toy.nonce; Buffer Toy.key])
      = Normal (Buffer c) /\
      outcome (crypto_aead_aes256gcm_decrypt_afternm (Toy.sodium 1)
                 Toy.uninit
                 [Buffer c; ad_value (Some Toy.metadata);
                  Buffer Toy.nonce; Buffer ctx])
      = Normal (Buffer Toy.message) /\
      outcome (crypto_aead_decrypt (Toy.sodium 1) Toy.uninit aes256gcm
                 [Buffer c; ad_value (Some Toy.metadata);
                  Buffer Toy.nonce; Buffer Toy.key])
      = Normal (Buffer Toy.message).
Proof.
  destruct (C3_key_and_state_interchangeable (Toy.sodium 1) Toy.uninit
              Toy.key Toy.message (Some Toy.metadata) Toy.nonce
              (ToyFacts.beforenm_returns_0_holds 1)
              (ToyFacts.beforenm_fills_state_holds 1)
              (ToyFacts.precompute_agrees_holds 1)
              eq_refl eq_refl)
    as (ctx & Hctx & Henc & _ & Hcross).
  destruct (Hcross (ToyFacts.afternm_round_trip_holds 1) eq_refl)
    as (c & Hkey & _ & Hdec_state & Hdec_key).
  exists ctx. repeat split; try assumption.
  exists c. repeat split; assumption.
Defined.

(** ** Availability *)

(** C5, as the code has it: the two aes256gcm encrypt methods of the file,
    combined and detached with a precomputed state, do not consult the
    capability query.  Each completes identically, with the same calls into
    libsodium, whatever [crypto_aead_aes256gcm_is_available] reports; and
    when it reports false, with nonce and state of valid lengths, each of
    them is neither refused nor failed: it goes to the primitive's
    transform and ends as the transform's return code says, with the
    output on success and [undefined] otherwise. *)
Theorem C5_encrypt_ignores_availability lib uninit available info :
  crypto_aead_aes256gcm_encrypt_afternm
    (with_availability lib available) uninit info
  = crypto_aead_aes256gcm_encrypt_afternm lib uninit info /\
  crypto_aead_aes256gcm_encrypt_detached_afternm
    (with_availability lib available) uninit info
  = crypto_aead_aes256gcm_encrypt_detached_afternm lib uninit info /\
  (forall m ad npub ctx,
     info = [Buffer m; ad_value ad; Buffer npub; Buffer ctx] ->
     length npub = crypto_aead_aes256gcm_NPUBBYTES ->
     length ctx = lib_aes256gcm_statebytes lib ->
     available <> 1%Z ->
     outcome (crypto_aead_aes256gcm_is_available
                (with_availability lib available) [])
     = Normal (Boolean false) /\
     (let r :=
        crypto_aead_aes256gcm_encrypt_afternm
          (with_availability lib available) uninit info in
      let res := lib_aes256gcm_encrypt_afternm lib m ad npub ctx in
      let c0 := repeat x00 (crypto_aead_aes256gcm_ABYTES + length m) in
      existsb is_transform (trace r) = true /\
      outcome r = completed (fst res) (Buffer (store c0 (snd res)))) /\
     (let r :=
        crypto_aead_aes256gcm_encrypt_detached_afternm
          (with_availability lib available) uninit info in
      let res := lib_aes256gcm_encrypt_detached_afternm lib m ad npub ctx in
      let c0 := NEW_BUFFER_AND_PTR uninit 0 (length m) in
      let mac0 :=
        NEW_BUFFER_AND_PTR uninit 1 crypto_aead_aes256gcm_ABYTES in
      existsb is_transform (trace r) = true /\
      outcome r
      = completed (fst res)
          (Object [("cipherText", Buffer (store c0 (fst (snd res))));
                   ("mac", Buffer (store mac0 (snd (snd res))))]))).
Proof.
  do 2 (split; [reflexivity |]).
  intros m ad npub ctx -> Hn Hx Havailable. split; [| split].
  - unfold crypto_aead_aes256gcm_is_available. cbv zeta.
    rewrite bind_emit. cbn [lib_aes256gcm_is_available with_availability].
    now rewrite (proj2 (Z.eqb_neq _ _) Havailable).
  - intros r res c0. subst r res c0.
    rewrite encrypt_afternm_run by assumption.
    split; reflexivity.
  - intros r res c0 mac0. subst r res c0 mac0.
    rewrite encrypt_detached_afternm_run by assumption.
    split; reflexivity.
Qed.

Lemma C5_witness :
  let lib := with_availability (Toy.sodium 1) 0 in
  let info := Toy.encrypt_args Toy.state in
  outcome (crypto_aead_aes256gcm_is_available lib []) = Normal (Boolean false)
  /\
  (let r := crypto_aead_aes256gcm_encrypt_afternm lib Toy.uninit info in
   let res :=
     lib_aes256gcm_encrypt_afternm (Toy.sodium 1) Toy.message
       (Some Toy.metadata) Toy.nonce Toy.state in
   let c0 :=
     repeat x00 (crypto_aead_aes256gcm_ABYTES + length Toy.message) in
   existsb is_transform (trace r) = true /\
   outcome r = completed (fst res) (Buffer (store c0 (snd res)))) /\
  (let r :=
     crypto_aead_aes256gcm_encrypt_detached_afternm lib Toy.uninit info in
   let res :=
     lib_aes256gcm_encrypt_detached_afternm (Toy.sodium 1) Toy.message
       (Some Toy.metadata) Toy.nonce Toy.state in
   let c0 := NEW_BUFFER_AND_PTR Toy.uninit 0 (length Toy.message) in
   let mac0 :=
     NEW_BUFFER_AND_PTR Toy.uninit 1 crypto_aead_aes256gcm_ABYTES in
   existsb is_transform (trace r) = true /\
   outcome r
   = completed (fst res)
       (Object [("cipherText", Buffer (store c0 (fst (snd res))));
                ("mac", Buffer (store mac0 (snd (snd res))))])).
Proof.
  apply (proj2 (proj2
           (C5_encrypt_ignores_availability (Toy.sodium 1) Toy.uninit 0
              (Toy.encrypt_args Toy.state)))
           Toy.message (Some Toy.metadata) Toy.nonce Toy.state).
  - reflexivity.
  - reflexivity.
  - reflexivity.
  - discriminate.
Defined.

(** On a host where the capability query answers false, combined and
    detached encrypt with valid arguments are neither refused nor failed:
    each calls the primitive's transform and returns its output. *)
Lemma C5_counterexample :
  let lib := Toy.sodium 0 in
  let r :=
    crypto_aead_aes256gcm_encrypt_afternm lib Toy.uninit
      (Toy.encrypt_args Toy.state) in
  let r' :=
    crypto_aead_aes256gcm_encrypt_detached_afternm lib Toy.uninit
      (Toy.encrypt_args Toy.state) in
  outcome (crypto_aead_aes256gcm_is_available lib []) = Normal (Boolean false)
  /\ existsb is_transform (trace r) = true
  /\ encrypt_failure (outcome r) = None
  /\ returned_bytes (outcome r) = Some Toy.sealed
  /\ existsb is_transform (trace r') = true
  /\ encrypt_failure (outcome r') = None.
Proof. vm_compute. repeat split. Qed.

(** ** Detached decrypt: the tag argument *)

Section TagChecked.

Variable lib : Sodium.
Variable uninit : nat -> nat -> byte.
Variable info : list value.
Variable c : bytes.
Hypothesis Hargs : 5 <= length info.
Hypothesis Hc : nth 0 info Undefined = Buffer c.





End TagChecked.





(** ** Building the precomputed state *)

(** C9: [crypto_aead_aes256gcm_beforenm] on a key buffer fails with
    InvalidLength exactly when the key does not have [key_len] bytes, and
    then without calling libsodium; on a key of exactly [key_len] bytes,
    key expansion returning 0 as libsodium documents, it returns a state
    buffer of exactly [crypto_aead_aes256gcm_statebytes()] bytes. *)
Theorem C9_beforenm_key_length lib uninit key :
  beforenm_returns_0 lib ->
  let r := crypto_aead_aes256gcm_beforenm lib uninit [Buffer key] in
  ((exists message, outcome r = Thrown InvalidLength message) <->
   length key <> crypto_aead_aes256gcm_KEYBYTES) /\
  (length key <> crypto_aead_aes256gcm_KEYBYTES -> trace r = []) /\
  (length key = crypto_aead_aes256gcm_KEYBYTES ->
   exists ctx,
     outcome r = Normal (Buffer ctx) /\
     length ctx = lib_aes256gcm_statebytes lib).
Proof.
  intros H0 r.
  destruct (Nat.eq_dec (length key) crypto_aead_aes256gcm_KEYBYTES)
    as [Hk | Hk].
  - assert (outcome r
            = Normal (Buffer (store
                (NEW_BUFFER_AND_PTR uninit 0 (lib_aes256gcm_statebytes lib))
                (snd (lib_aes256gcm_beforenm lib key))))) as Hr.
    { subst r. rewrite beforenm_run by assumption. cbv zeta.
      rewrite H0. reflexivity. }
    split; [| split].
    + split; [| contradiction].
      intros [message Hm]. rewrite Hr in Hm. discriminate.
    + contradiction.
    + intros _. eexists. split; [exact Hr |].
      now rewrite store_length, NEW_BUFFER_AND_PTR_length.
  - assert (exists message, r = ([], Thrown InvalidLength message)) as Hr.
    { subst r. unfold crypto_aead_aes256gcm_beforenm.
      rewrite run_ARGS_enough by (cbn [length]; lia).
      step. cbn [nth]. rewrite (proj2 (Nat.eqb_neq _ _) Hk).
      eexists. reflexivity. }
    destruct Hr as [message Hr].
    split; [| split].
    + split; [intros _; assumption |].
      intros _. exists message. now rewrite Hr.
    + intros _. now rewrite Hr.
    + contradiction.
Qed.

Lemma C9_witness :
  let r :=
    crypto_aead_aes256gcm_beforenm (Toy.sodium 1) Toy.uninit
      [Buffer Toy.key] in
  exists ctx,
    outcome r = Normal (Buffer ctx) /\
    length ctx = lib_aes256gcm_statebytes (Toy.sodium 1).
Proof.
  apply (C9_beforenm_key_length (Toy.sodium 1) Toy.uninit Toy.key
           (ToyFacts.beforenm_returns_0_holds 1)).
  reflexivity.
Defined.

(** ** What the output buffers hold *)

(** What lies behind the bytes a call stored. *)
Lemma store_rest buf written :
  length written <= length buf ->
  skipn (length written) (store buf written) = skipn (length written) buf.
Proof.
  intros H. rewrite store_prefix by assumption.
  rewrite skipn_app, Nat.sub_diag, skipn_all, skipn_O. reflexivity.
Qed.

Lemma skipn_zeros k n : skipn k (repeat x00 n) = repeat x00 (n - k).
Proof.
  revert n. induction k as [| k IH]; intros n.
  - now rewrite Nat.sub_0_r.
  - destruct n as [| n]; [reflexivity |]. cbn. apply IH.
Qed.

Lemma skipn_NEW_BUFFER_AND_PTR uninit slot k size :
  skipn k (NEW_BUFFER_AND_PTR uninit slot size)
  = map (uninit slot) (seq k (size - k)).
Proof.
  unfold NEW_BUFFER_AND_PTR. now rewrite skipn_map, skipn_seq.
Qed.

(** C10: with nonce and state of valid lengths, combined encrypt hands the
    primitive an output buffer that is all zero, whatever the allocation
    held, so every byte the primitive does not store is zero when the call
    returns, on its error path too.  Detached encrypt hands the primitive
    its two allocations as they came: every byte of the ciphertext buffer
    and of the tag buffer that the primitive does not store is still the
    byte the allocation held. *)
Theorem C10_only_combined_encrypt_zeroes lib uninit m ad npub ctx :
  length npub = crypto_aead_aes256gcm_NPUBBYTES ->
  length ctx = lib_aes256gcm_statebytes lib ->
  (let size := crypto_aead_aes256gcm_ABYTES + length m in
   let res := lib_aes256gcm_encrypt_afternm lib m ad npub ctx in
   let c := store (repeat x00 size) (snd res) in
   trace (crypto_aead_aes256gcm_encrypt_afternm lib uninit
            [Buffer m; ad_value ad; Buffer npub; Buffer ctx])
   = [statebytes_call;
      Call ep_encrypt_afternm [repeat x00 size] (fst res) [c]] /\
   (length (snd res) <= size ->
    skipn (length (snd res)) c = repeat x00 (size - length (snd res)))) /\
  (let res := lib_aes256gcm_encrypt_detached_afternm lib m ad npub ctx in
   let c0 := NEW_BUFFER_AND_PTR uninit 0 (length m) in
   let mac0 := NEW_BUFFER_AND_PTR uninit 1 crypto_aead_aes256gcm_ABYTES in
   let c := store c0 (fst (snd res)) in
   let mac := store mac0 (snd (snd res)) in
   trace (crypto_aead_aes256gcm_encrypt_detached_afternm lib uninit
            [Buffer m; ad_value ad; Buffer npub; Buffer ctx])
   = [statebytes_call;
      Call ep_encrypt_detached_afternm [c0; mac0] (fst res) [c; mac]] /\
   c0 = map (uninit 0) (seq 0 (length m)) /\
   mac0 = map (uninit 1) (seq 0 crypto_aead_aes256gcm_ABYTES) /\
   (length (fst (snd res)) <= length m ->
    skipn (length (fst (snd res))) c
    = map (uninit 0)
        (seq (length (fst (snd res)))
           (length m - length (fst (snd res))))) /\
   (length (snd (snd res)) <= crypto_aead_aes256gcm_ABYTES ->
    skipn (length (snd (snd res))) mac
    = map (uninit 1)
        (seq (length (snd (snd res)))
           (crypto_aead_aes256gcm_ABYTES - length (snd (snd res)))))).
Proof.
  intros Hn Hx. split.
  - intros size res c. split.
    + now rewrite encrypt_afternm_run by assumption.
    + intros Hw. subst c.
      rewrite store_rest by now rewrite repeat_length.
      apply skipn_zeros.
  - intros res c0 mac0 c mac. split; [| split; [| split; [| split]]].
    + now rewrite encrypt_detached_afternm_run by assumption.
    + reflexivity.
    + reflexivity.
    + intros Hw. subst c.
      rewrite store_rest
        by (subst c0; now rewrite NEW_BUFFER_AND_PTR_length).
      apply skipn_NEW_BUFFER_AND_PTR.
    + intros Hw. subst mac.
      rewrite store_rest
        by (subst mac0; now rewrite NEW_BUFFER_AND_PTR_length).
      apply skipn_NEW_BUFFER_AND_PTR.
Qed.

(** Under the faulty library, which stores two bytes and fails: the
    combined buffer ends in nineteen zero bytes, the detached buffers still
    hold what the allocations held. *)
Lemma C10_witness :
  (nth 1 (trace (crypto_aead_aes256gcm_encrypt_afternm Toy.faulty
                   Toy.uninit (Toy.encrypt_args Toy.state)))
     statebytes_call
   = Call ep_encrypt_afternm [repeat x00 21] (-1)
       [[x5b; x56] ++ repeat x00 19]) /\
  (nth 1 (trace (crypto_aead_aes256gcm_encrypt_detached_afternm Toy.faulty
                   Toy.uninit (Toy.encrypt_args Toy.state)))
     statebytes_call
   = Call ep_encrypt_detached_afternm
       [[xaa; x55; xaa; x55; xaa];
        [x55; xaa; x55; xaa; x55; xaa; x55; xaa;
         x55; xaa; x55; xaa; x55; xaa; x55; xaa]]
       (-1)
       [[x5b; x56; xaa; x55; xaa];
        [x55; xaa; x55; xaa; x55; xaa; x55; xaa;
         x55; xaa; x55; xaa; x55; xaa; x55; xaa]]).
Proof.
  destruct (C10_only_combined_encrypt_zeroes Toy.faulty Toy.uninit
              Toy.message (Some Toy.metadata) Toy.nonce Toy.state
              eq_refl eq_refl) as [[Hcombined _] [Hdetached _]].
  split.
  - change (Toy.encrypt_args Toy.state)
      with [Buffer Toy.message; ad_value (Some Toy.metadata);
            Buffer Toy.nonce; Buffer Toy.state].
    rewrite Hcombined. vm_compute. reflexivity.
  - change (Toy.encrypt_args Toy.state)
      with [Buffer Toy.message; ad_value (Some Toy.metadata);
            Buffer Toy.nonce; Buffer Toy.state].
    rewrite Hdetached. vm_compute. reflexivity.
Defined.

(** * Further properties of the methods of crypto_aead.cc *)

(** ** Encrypt and key expansion on arbitrary arguments *)

Section MoreShapes.

Variable lib : Sodium.
Variable uninit : nat -> nat -> byte.

Lemma beforenm_shape info :
  let r := crypto_aead_aes256gcm_beforenm lib uninit info in
  rejected r \/
  exists key,
    nth 0 info Undefined = Buffer key /\
    length key = crypto_aead_aes256gcm_KEYBYTES /\
    let ctxt0 :=
      NEW_BUFFER_AND_PTR uninit 0 (lib_aes256gcm_statebytes lib) in
    let res := lib_aes256gcm_beforenm lib key in
    r = ([statebytes_call;
          Call ep_beforenm [ctxt0] (fst res) [store ctxt0 (snd res)]],
         completed (fst res) (Buffer (store ctxt0 (snd res)))).
Proof.
  unfold crypto_aead_aes256gcm_beforenm.
  step. destruct (length info <? 1); [reject |].
  step. destruct (nth 0 info Undefined) as [| | |key|]; try reject.
  destruct (length key =? crypto_aead_aes256gcm_KEYBYTES) eqn:Hk;
    [| reject].
  apply Nat.eqb_eq in Hk.
  right. exists key. repeat (split; [assumption || reflexivity |]).
  cbv zeta. step. step. finish_run.
Qed.

Lemma encrypt_afternm_shape info :
  let r := crypto_aead_aes256gcm_encrypt_afternm lib uninit info in
  rejected r \/
  exists m npub ctx,
    nth 0 info Undefined = Buffer m /\
    nth 2 info Undefined = Buffer npub /\
    nth 3 info Undefined = Buffer ctx /\
    length npub = crypto_aead_aes256gcm_NPUBBYTES /\
    length ctx = lib_aes256gcm_statebytes lib /\
    let ad := optional_buffer (nth 1 info Undefined) in
    let c0 := repeat x00 (crypto_aead_aes256gcm_ABYTES + length m) in
    let res := lib_aes256gcm_encrypt_afternm lib m ad npub ctx in
    r = ([statebytes_call;
          Call ep_encrypt_afternm [c0] (fst res) [store c0 (snd res)]],
         completed (fst res) (Buffer (store c0 (snd res)))).
Proof.
  unfold crypto_aead_aes256gcm_encrypt_afternm.
  step. destruct (length info <? 4); [reject |].
  step. destruct (nth 0 info Undefined) as [| | |m|]; try reject.
  step. step. destruct (nth 2 info Undefined) as [| | |npub|]; try reject.
  destruct (length npub =? crypto_aead_aes256gcm_NPUBBYTES) eqn:Hn;
    [| reject].
  apply Nat.eqb_eq in Hn.
  step. destruct (nth 3 info Undefined) as [| | |ctx|]; try reject.
  destruct (length ctx =? lib_aes256gcm_statebytes lib) eqn:Hx; [| reject].
  apply Nat.eqb_eq in Hx.
  right. exists m, npub, ctx. repeat (split; [assumption || reflexivity |]).
  cbv zeta. step. rewrite memzero_new_buffer. finish_run.
Qed.

Lemma encrypt_detached_afternm_shape info :
  let r := crypto_aead_aes256gcm_encrypt_detached_afternm lib uninit info in
  rejected r \/
  exists m npub ctx,
    nth 0 info Undefined = Buffer m /\
    nth 2 info Undefined = Buffer npub /\
    nth 3 info Undefined = Buffer ctx /\
    length npub = crypto_aead_aes256gcm_NPUBBYTES /\
    length ctx = lib_aes256gcm_statebytes lib /\
    let ad := optional_buffer (nth 1 info Undefined) in
    let c0 := NEW_BUFFER_AND_PTR uninit 0 (length m) in
    let mac0 := NEW_BUFFER_AND_PTR uninit 1 crypto_aead_aes256gcm_ABYTES in
    let res := lib_aes256gcm_encrypt_detached_afternm lib m ad npub ctx in
    let c := store c0 (fst (snd res)) in
    let mac := store mac0 (snd (snd res)) in
    r = ([statebytes_call;
          Call ep_encrypt_detached_afternm [c0; mac0] (fst res) [c; mac]],
         completed (fst res)
           (Object [("cipherText", Buffer c); ("mac", Buffer mac)])).
Proof.
  unfold crypto_aead_aes256gcm_encrypt_detached_afternm.
  step. destruct (length info <? 4); [reject |].
  step. destruct (nth 0 info Undefined) as [| | |m|]; try reject.
  step. step. destruct (nth 2 info Undefined) as [| | |npub|]; try reject.
  destruct (length npub =? crypto_aead_aes256gcm_NPUBBYTES) eqn:Hn;
    [| reject].
  apply Nat.eqb_eq in Hn.
  step. destruct (nth 3 info Undefined) as [| | |ctx|]; try reject.
  destruct (length ctx =? lib_aes256gcm_statebytes lib) eqn:Hx; [| reject].
  apply Nat.eqb_eq in Hx.
  right. exists m, npub, ctx. repeat (split; [assumption || reflexivity |]).
  cbv zeta. step. finish_run.
Qed.

End MoreShapes.

(** ** What the two ways of ending say about the run *)

(** A rejected run does not return, and made no transform call. *)
Lemma rejected_facts (r : M value) :
  rejected r ->
  (forall v, outcome r <> Normal v) /\
  transform_calls r = [].
Proof.
  intros [(kind & message & Hout) Hnone]. split.
  - intros v Hv. rewrite Hout in Hv. discriminate.
  - unfold transform_calls.
    induction (trace r) as [| e t IH]; [reflexivity |].
    cbn. rewrite (Hnone e (or_introl eq_refl)).
    apply IH. intros e' He'. apply Hnone. now right.
Qed.

(** A run that came to its call of the primitive made exactly that
    transform call, did not throw, and returns [undefined] exactly when the
    call failed. *)
Lemma called_facts (r : M value) e0 rc v :
  r = ([statebytes_call; e0], completed rc v) ->
  is_transform e0 = true ->
  ev_rc e0 = rc ->
  v <> Undefined ->
  transform_calls r = [e0] /\
  (exists v', outcome r = Normal v') /\
  (outcome r = Normal Undefined <-> rc <> 0%Z) /\
  (rc = 0%Z -> outcome r = Normal v).
Proof.
  intros -> He0 Hrc Hv.
  unfold transform_calls, trace, outcome, completed. cbn [fst snd].
  split; [| split; [| split]].
  - cbn. now rewrite He0.
  - destruct (rc =? 0)%Z; eexists; reflexivity.
  - destruct (rc =? 0)%Z eqn:E.
    + apply Z.eqb_eq in E. split; [| contradiction].
      intros H. injection H as H. contradiction.
    + apply Z.eqb_neq in E. split; [now intros _ | reflexivity].
  - intros ->. reflexivity.
Qed.

(** Both facts in the form the theorems below use: the run makes at most
    one transform call, none if it throws, and returns [undefined] exactly
    when it made a transform call that failed. *)
Lemma run_facts (r : M value) :
  (rejected r \/
   exists e0 rc v,
     r = ([statebytes_call; e0], completed rc v) /\
     is_transform e0 = true /\ ev_rc e0 = rc /\ v <> Undefined) ->
  length (transform_calls r) <= 1 /\
  ((exists kind message, outcome r = Thrown kind message) ->
   transform_calls r = []) /\
  (outcome r = Normal Undefined <->
   exists e, In e (trace r) /\ is_transform e = true /\ ev_rc e <> 0%Z).
Proof.
  intros [Hrej | (e0 & rc & v & Hr & He0 & Hrc & Hv)].
  - destruct (rejected_facts r Hrej) as [Hnot Hnone].
    split; [| split].
    + rewrite Hnone. cbn. lia.
    + intros _. exact Hnone.
    + split.
      * intros H. now elim (Hnot Undefined).
      * intros (e & Hin & He & _).
        destruct Hrej as [_ Hrej]. apply Hrej in Hin. congruence.
  - destruct (called_facts r e0 rc v Hr He0 Hrc Hv)
      as (Hone & (v' & Hret) & Hundef & _).
    split; [| split].
    + rewrite Hone. cbn. lia.
    + intros (kind & message & Hthrown). rewrite Hret in Hthrown.
      discriminate.
    + rewrite Hundef. split.
      * intros Hne. exists e0. rewrite Hr. unfold trace. cbn [fst].
        repeat split; [right; left; reflexivity | assumption | congruence].
      * intros (e & Hin & He & Hne). rewrite Hr in Hin.
        unfold trace in Hin. cbn [fst] in Hin.
        destruct Hin as [<- | [<- | []]]; [discriminate | congruence].
Qed.

Section RunForms.

Variable lib : Sodium.
Variable uninit : nat -> nat -> byte.

Ltac called := right; do 3 eexists; split; [eassumption |];
               repeat split; discriminate.

Lemma beforenm_form info :
  let r := crypto_aead_aes256gcm_beforenm lib uninit info in
  rejected r \/
  exists e0 rc v,
    r = ([statebytes_call; e0], completed rc v) /\
    is_transform e0 = true /\ ev_rc e0 = rc /\ v <> Undefined.
Proof.
  destruct (beforenm_shape lib uninit info)
    as [Hrej | (key & _ & _ & Hr)]; [now left | called].
Qed.

Lemma encrypt_afternm_form info :
  let r := crypto_aead_aes256gcm_encrypt_afternm lib uninit info in
  rejected r \/
  exists e0 rc v,
    r = ([statebytes_call; e0], completed rc v) /\
    is_transform e0 = true /\ ev_rc e0 = rc /\ v <> Undefined.
Proof.
  destruct (encrypt_afternm_shape lib uninit info)
    as [Hrej | (m & npub & ctx & _ & _ & _ & _ & _ & Hr)];
    [now left | called].
Qed.

Lemma decrypt_afternm_form info :
  let r := crypto_aead_aes256gcm_decrypt_afternm lib uninit info in
  rejected r \/
  exists e0 rc v,
    r = ([statebytes_call; e0], completed rc v) /\
    is_transform e0 = true /\ ev_rc e0 = rc /\ v <> Undefined.
Proof.
  destruct (decrypt_afternm_shape lib uninit info)
    as [Hrej | (c & npub & ctx & _ & _ & _ & _ & _ & _ & Hr)];
    [now left | called].
Qed.

Lemma encrypt_detached_afternm_form info :
  let r := crypto_aead_aes256gcm_encrypt_detached_afternm lib uninit info in
  rejected r \/
  exists e0 rc v,
    r = ([statebytes_call; e0], completed rc v) /\
    is_transform e0 = true /\ ev_rc e0 = rc /\ v <> Undefined.
Proof.
  destruct (encrypt_detached_afternm_shape lib uninit info)
    as [Hrej | (m & npub & ctx & _ & _ & _ & _ & _ & Hr)];
    [now left | called].
Qed.

Lemma decrypt_detached_afternm_form info :
  let r := crypto_aead_aes256gcm_decrypt_detached_afternm lib uninit info in
  rejected r \/
  exists e0 rc v,
    r = ([statebytes_call; e0], completed rc v) /\
    is_transform e0 = true /\ ev_rc e0 = rc /\ v <> Undefined.
Proof.
  destruct (decrypt_detached_afternm_shape lib uninit info)
    as [Hrej | (c & mac & npub & ctx & _ & _ & _ & _ & _ & _ & _ & Hr)];
    [now left | called].
Qed.

End RunForms.

(** ** The [undefined] sentinel *)

(** X1: on any arguments, combined and detached encrypt with a precomputed
    state return [undefined] exactly when they called the primitive and the
    primitive returned a non-zero code; a validation failure never shows as
    [undefined]. *)
Theorem X1_encrypt_undefined_iff_primitive_failed lib uninit info :
  (let r := crypto_aead_aes256gcm_encrypt_afternm lib uninit info in
   outcome r = Normal Undefined <->
   exists e, In e (trace r) /\ is_transform e = true /\ ev_rc e <> 0%Z) /\
  (let r :=
     crypto_aead_aes256gcm_encrypt_detached_afternm lib uninit info in
   outcome r = Normal Undefined <->
   exists e, In e (trace r) /\ is_transform e = true /\ ev_rc e <> 0%Z).
Proof.
  split.
  - apply run_facts, encrypt_afternm_form.
  - apply run_facts, encrypt_detached_afternm_form.
Qed.

(** X2: on any arguments, combined and detached decrypt with a precomputed
    state return [undefined] exactly when they called the primitive and the
    primitive returned a non-zero code: a short ciphertext, a bad tag length
    or any other validation failure throws instead. *)
Theorem X2_decrypt_undefined_iff_primitive_failed lib uninit info :
  (let r := crypto_aead_aes256gcm_decrypt_afternm lib uninit info in
   outcome r = Normal Undefined <->
   exists e, In e (trace r) /\ is_transform e = true /\ ev_rc e <> 0%Z) /\
  (let r :=
     crypto_aead_aes256gcm_decrypt_detached_afternm lib uninit info in
   outcome r = Normal Undefined <->
   exists e, In e (trace r) /\ is_transform e = true /\ ev_rc e <> 0%Z).
Proof.
  split.
  - apply run_facts, decrypt_afternm_form.
  - apply run_facts, decrypt_detached_afternm_form.
Qed.

(** X3: on any arguments, [crypto_aead_aes256gcm_beforenm] returns
    [undefined] exactly when it called the key expansion and the key
    expansion returned a non-zero code; it never returns a state the
    expansion reported as failed. *)
Theorem X3_beforenm_undefined_iff_expansion_failed lib uninit info :
  let r := crypto_aead_aes256gcm_beforenm lib uninit info in
  (outcome r = Normal Undefined <->
   exists e, In e (trace r) /\ is_transform e = true /\ ev_rc e <> 0%Z) /\
  (forall ctx e,
     outcome r = Normal (Buffer ctx) ->
     In e (trace r) -> is_transform e = true -> ev_rc e = 0%Z).
Proof.
  intros r. split.
  - apply run_facts, beforenm_form.
  - intros ctx e Hout Hin _. subst r.
    destruct (beforenm_shape lib uninit info)
      as [[(kind & message & Hthrown) _] | (key & _ & _ & Hr)].
    + rewrite Hthrown in Hout. discriminate.
    + cbv zeta in Hr. rewrite Hr in Hout, Hin.
      unfold outcome, trace, completed in Hout, Hin. cbn [fst snd] in *.
      destruct Hin as [<- | [<- | []]]; [reflexivity |]. cbn [ev_rc].
      destruct (fst (lib_aes256gcm_beforenm lib key) =? 0)%Z eqn:E;
        [now apply Z.eqb_eq | discriminate].
Qed.

(** ** Calls into libsodium *)

(** X4: on any arguments, every method of the file calls at most one
    transform of libsodium, and none at all when it throws; the capability
    query calls none, never throws and always answers with a boolean. *)
Theorem X4_at_most_one_transform_call lib uninit info :
  (let r := crypto_aead_aes256gcm_is_available lib info in
   transform_calls r = [] /\ exists b, outcome r = Normal (Boolean b)) /\
  (let r := crypto_aead_aes256gcm_beforenm lib uninit info in
   length (transform_calls r) <= 1 /\
   ((exists kind message, outcome r = Thrown kind message) ->
    transform_calls r = [])) /\
  (let r := crypto_aead_aes256gcm_encrypt_afternm lib uninit info in
   length (transform_calls r) <= 1 /\
   ((exists kind message, outcome r = Thrown kind message) ->
    transform_calls r = [])) /\
  (let r := crypto_aead_aes256gcm_decrypt_afternm lib uninit info in
   length (transform_calls r) <= 1 /\
   ((exists kind message, outcome r = Thrown kind message) ->
    transform_calls r = [])) /\
  (let r :=
     crypto_aead_aes256gcm_encrypt_detached_afternm lib uninit info in
   length (transform_calls r) <= 1 /\
   ((exists kind message, outcome r = Thrown kind message) ->
    transform_calls r = [])) /\
  (let r :=
     crypto_aead_aes256gcm_decrypt_detached_afternm lib uninit info in
   length (transform_calls r) <= 1 /\
   ((exists kind message, outcome r = Thrown kind message) ->
    transform_calls r = [])).
Proof.
  split; [| repeat split].
  - unfold crypto_aead_aes256gcm_is_available. cbv zeta.
    rewrite bind_emit.
    destruct (lib_aes256gcm_is_available lib =? 1)%Z;
      (split; [reflexivity | eexists; reflexivity]).
  - apply (run_facts _ (beforenm_form lib uninit info)).
  - apply (run_facts _ (beforenm_form lib uninit info)).
  - apply (run_facts _ (encrypt_afternm_form lib uninit info)).
  - apply (run_facts _ (encrypt_afternm_form lib uninit info)).
  - apply (run_facts _ (decrypt_afternm_form lib uninit info)).
  - apply (run_facts _ (decrypt_afternm_form lib uninit info)).
  - apply (run_facts _ (encrypt_detached_afternm_form lib uninit info)).
  - apply (run_facts _ (encrypt_detached_afternm_form lib uninit info)).
  - apply (run_facts _ (decrypt_detached_afternm_form lib uninit info)).
  - apply (run_facts _ (decrypt_detached_afternm_form lib uninit info)).
Qed.

Lemma rejected_no_transform (r : M value) e :
  rejected r -> In e (trace r) -> is_transform e = true -> False.
Proof. intros [_ Hrej] Hin He. apply Hrej in Hin. congruence. Qed.

(** X5: on any arguments, a transform of libsodium is called only with a
    key of exactly KEYBYTES bytes (key expansion), and only with a nonce of
    exactly NPUBBYTES bytes and a state of exactly
    [crypto_aead_aes256gcm_statebytes()] bytes (the four precomputed-state
    methods); combined decrypt also only with a ciphertext of at least
    ABYTES bytes. *)
Theorem X5_transform_sees_exact_lengths lib uninit info e :
  is_transform e = true ->
  (In e (trace (crypto_aead_aes256gcm_beforenm lib uninit info)) ->
   exists key,
     nth 0 info Undefined = Buffer key /\
     length key = crypto_aead_aes256gcm_KEYBYTES) /\
  (In e (trace (crypto_aead_aes256gcm_encrypt_afternm lib uninit info)) ->
   exists npub ctx,
     nth 2 info Undefined = Buffer npub /\
     nth 3 info Undefined = Buffer ctx /\
     length npub = crypto_aead_aes256gcm_NPUBBYTES /\
     length ctx = lib_aes256gcm_statebytes lib) /\
  (In e (trace (crypto_aead_aes256gcm_decrypt_afternm lib uninit info)) ->
   exists c npub ctx,
     nth 0 info Undefined = Buffer c /\
     nth 2 info Undefined = Buffer npub /\
     nth 3 info Undefined = Buffer ctx /\
     crypto_aead_aes256gcm_ABYTES <= length c /\
     length npub = crypto_aead_aes256gcm_NPUBBYTES /\
     length ctx = lib_aes256gcm_statebytes lib) /\
  (In e (trace (crypto_aead_aes256gcm_encrypt_detached_afternm lib uninit
                  info)) ->
   exists npub ctx,
     nth 2 info Undefined = Buffer npub /\
     nth 3 info Undefined = Buffer ctx /\
     length npub = crypto_aead_aes256gcm_NPUBBYTES /\
     length ctx = lib_aes256gcm_statebytes lib) /\
  (In e (trace (crypto_aead_aes256gcm_decrypt_detached_afternm lib uninit
                  info)) ->
   exists npub ctx,
     nth 3 info Undefined = Buffer npub /\
     nth 4 info Undefined = Buffer ctx /\
     length npub = crypto_aead_aes256gcm_NPUBBYTES /\
     length ctx = lib_aes256gcm_statebytes lib).
Proof.
  intros He. split; [| split; [| split; [| split]]]; intros Hin.
  - destruct (beforenm_shape lib uninit info)
      as [Hrej | (key & Hk & Hl & _)].
    + now elim (rejected_no_transform _ e Hrej).
    + now exists key.
  - destruct (encrypt_afternm_shape lib uninit info)
      as [Hrej | (m & npub & ctx & _ & Hn & Hx & Hln & Hlx & _)].
    + now elim (rejected_no_transform _ e Hrej).
    + now exists npub, ctx.
  - destruct (decrypt_afternm_shape lib uninit info)
      as [Hrej | (c & npub & ctx & Hc & Hn & Hx & Hlc & Hln & Hlx & _)].
    + now elim (rejected_no_transform _ e Hrej).
    + now exists c, npub, ctx.
  - destruct (encrypt_detached_afternm_shape lib uninit info)
      as [Hrej | (m & npub & ctx & _ & Hn & Hx & Hln & Hlx & _)].
    + now elim (rejected_no_transform _ e Hrej).
    + now exists npub, ctx.
  - destruct (decrypt_detached_afternm_shape lib uninit info)
      as [Hrej | (c & mac & npub & ctx & _ & _ & Hn & Hx & _ & Hln & Hlx & _)].
    + now elim (rejected_no_transform _ e Hrej).
    + now exists npub, ctx.
Qed.

Lemma X5_witness :
  exists npub ctx,
    nth 2 (Toy.encrypt_args Toy.state) Undefined = Buffer npub /\
    nth 3 (Toy.encrypt_args Toy.state) Undefined = Buffer ctx /\
    length npub = crypto_aead_aes256gcm_NPUBBYTES /\
    length ctx = lib_aes256gcm_statebytes (Toy.sodium 1).
Proof.
  refine (proj1 (proj2
            (X5_transform_sees_exact_lengths (Toy.sodium 1) Toy.uninit
               (Toy.encrypt_args Toy.state)
               (Call ep_encrypt_afternm [repeat x00 21] 0 [Toy.sealed])
               eq_refl)) _).
  vm_compute. right. left. reflexivity.
Defined.

(** ** Detached mode: what comes back *)

(** X6: detached encrypt with a precomputed state, on nonce and state of
    the required lengths and a primitive call that reports success, returns
    an object with exactly the two properties [cipherText] and [mac], in
    this order, holding a buffer of as many bytes as the message and a
    buffer of ABYTES bytes; the sizes come from the allocations, whatever
    the primitive stored. *)
Theorem X6_encrypt_detached_result lib uninit m ad npub ctx :
  length npub = crypto_aead_aes256gcm_NPUBBYTES ->
  length ctx = lib_aes256gcm_statebytes lib ->
  fst (lib_aes256gcm_encrypt_detached_afternm lib m ad npub ctx) = 0%Z ->
  exists c mac,
    outcome (crypto_aead_aes256gcm_encrypt_detached_afternm lib uninit
               [Buffer m; ad_value ad; Buffer npub; Buffer ctx])
    = Normal (Object [("cipherText", Buffer c); ("mac", Buffer mac)]) /\
    length c = length m /\
    length mac = crypto_aead_aes256gcm_ABYTES.
Proof.
  intros Hn Hx Hrc.
  rewrite encrypt_detached_afternm_run by assumption. cbv zeta.
  rewrite Hrc. do 2 eexists. split; [reflexivity |].
  now rewrite !store_length, !NEW_BUFFER_AND_PTR_length.
Qed.

Lemma X6_witness :
  exists c mac,
    outcome (crypto_aead_aes256gcm_encrypt_detached_afternm (Toy.sodium 1)
               Toy.uninit
               [Buffer Toy.message; ad_value (Some Toy.metadata);
                Buffer Toy.nonce; Buffer Toy.state])
    = Normal (Object [("cipherText", Buffer c); ("mac", Buffer mac)]) /\
    length c = length Toy.message /\
    length mac = crypto_aead_aes256gcm_ABYTES.
Proof.
  apply (X6_encrypt_detached_result (Toy.sodium 1) Toy.uninit Toy.message
           (Some Toy.metadata) Toy.nonce Toy.state);
    reflexivity.
Defined.

(** X7: detached decrypt with a precomputed state, on a tag of ABYTES
    bytes, nonce and state of the required lengths and a primitive call
    that reports success, returns a plaintext buffer of exactly as many
    bytes as the ciphertext, the empty ciphertext included. *)
Theorem X7_decrypt_detached_plaintext_length lib uninit c mac ad npub ctx :
  length mac = crypto_aead_aes256gcm_ABYTES ->
  length npub = crypto_aead_aes256gcm_NPUBBYTES ->
  length ctx = lib_aes256gcm_statebytes lib ->
  fst (lib_aes256gcm_decrypt_detached_afternm lib c mac ad npub ctx)
  = 0%Z ->
  exists m,
    outcome (crypto_aead_aes256gcm_decrypt_detached_afternm lib uninit
               [Buffer c; Buffer mac; ad_value ad; Buffer npub; Buffer ctx])
    = Normal (Buffer m) /\
    length m = length c.
Proof.
  intros Hm Hn Hx Hrc.
  rewrite decrypt_detached_afternm_run by assumption. cbv zeta.
  rewrite Hrc. eexists. split; [reflexivity |].
  now rewrite store_length, NEW_BUFFER_AND_PTR_length.
Qed.

Lemma X7_witness :
  exists m,
    outcome (crypto_aead_aes256gcm_decrypt_detached_afternm (Toy.sodium 1)
               Toy.uninit
               [Buffer []; Buffer (Toy.tag [] None Toy.nonce Toy.state);
                ad_value None; Buffer Toy.nonce; Buffer Toy.state])
    = Normal (Buffer m) /\
    length m = length (@nil byte).
Proof.
  apply (X7_decrypt_detached_plaintext_length (Toy.sodium 1) Toy.uninit []
           (Toy.tag [] None Toy.nonce Toy.state) None Toy.nonce Toy.state);
    reflexivity.
Defined.

(** ** What the returned plaintext holds *)

(** X8: the decrypt methods return their whole allocation and never read
    back how many bytes the primitive stored.  On a primitive call that
    reports success after storing fewer bytes than the plaintext buffer
    holds, the returned buffer is the stored bytes followed by the bytes
    the allocation held: decrypt does not clear its output buffer. *)
Theorem X8_decrypt_returns_whole_allocation lib uninit c ad npub ctx :
  length npub = crypto_aead_aes256gcm_NPUBBYTES ->
  length ctx = lib_aes256gcm_statebytes lib ->
  (crypto_aead_aes256gcm_ABYTES <= length c ->
   let size := length c - crypto_aead_aes256gcm_ABYTES in
   let res := lib_aes256gcm_decrypt_afternm lib c ad npub ctx in
   fst res = 0%Z ->
   length (snd res) <= size ->
   outcome (crypto_aead_aes256gcm_decrypt_afternm lib uninit
              [Buffer c; ad_value ad; Buffer npub; Buffer ctx])
   = Normal (Buffer (snd res
                       ++ map (uninit 0)
                            (seq (length (snd res))
                               (size - length (snd res)))))) /\
  (forall mac,
     length mac = crypto_aead_aes256gcm_ABYTES ->
     let res :=
       lib_aes256gcm_decrypt_detached_afternm lib c mac ad npub ctx in
     fst res = 0%Z ->
     length (snd res) <= length c ->
     outcome (crypto_aead_aes256gcm_decrypt_detached_afternm lib uninit
                [Buffer c; Buffer mac; ad_value ad; Buffer npub;
                 Buffer ctx])
     = Normal (Buffer (snd res
                         ++ map (uninit 0)
                              (seq (length (snd res))
                                 (length c - length (snd res)))))).
Proof.
  intros Hn Hx. split.
  - intros Hc size res Hrc Hlen. subst size res.
    rewrite decrypt_afternm_run by assumption. cbv zeta.
    rewrite Hrc. unfold outcome, completed. cbn [snd Z.eqb].
    rewrite store_prefix by now rewrite NEW_BUFFER_AND_PTR_length.
    now rewrite skipn_NEW_BUFFER_AND_PTR.
  - intros mac Hm res Hrc Hlen. subst res.
    rewrite decrypt_detached_afternm_run by assumption. cbv zeta.
    rewrite Hrc. unfold outcome, completed. cbn [snd Z.eqb].
    rewrite store_prefix by now rewrite NEW_BUFFER_AND_PTR_length.
    now rewrite skipn_NEW_BUFFER_AND_PTR.
Qed.

(** Under the library that stores two bytes and reports success, the
    plaintext of the sample message comes back as two bytes of plaintext
    and three bytes of the allocation. *)
Lemma X8_witness :
  outcome (crypto_aead_aes256gcm_decrypt_afternm Toy.truncating Toy.uninit
             [Buffer Toy.sealed; ad_value (Some Toy.metadata);
              Buffer Toy.nonce; Buffer Toy.state])
  = Normal (Buffer ([x68; x65] ++ [xaa; x55; xaa])).
Proof.
  pose proof (proj1 (X8_decrypt_returns_whole_allocation Toy.truncating
                       Toy.uninit Toy.sealed (Some Toy.metadata) Toy.nonce
                       Toy.state eq_refl eq_refl)) as H.
  cbv zeta in H. rewrite H.
  - vm_compute. reflexivity.
  - vm_compute. lia.
  - reflexivity.
  - vm_compute. lia.
Defined.

(** X12: a combined ciphertext of exactly ABYTES bytes passes the length
    guard, and on a primitive call that reports success the method returns
    the empty buffer, a value distinct from the [undefined] of a failed
    verification. *)
Theorem X12_tag_only_ciphertext lib uninit c ad npub ctx :
  length c = crypto_aead_aes256gcm_ABYTES ->
  length npub = crypto_aead_aes256gcm_NPUBBYTES ->
  length ctx = lib_aes256gcm_statebytes lib ->
  let r :=
    crypto_aead_aes256gcm_decrypt_afternm lib uninit
      [Buffer c; ad_value ad; Buffer npub; Buffer ctx] in
  length (transform_calls r) = 1 /\
  (fst (lib_aes256gcm_decrypt_afternm lib c ad npub ctx) = 0%Z ->
   outcome r = Normal (Buffer [])) /\
  (fst (lib_aes256gcm_decrypt_afternm lib c ad npub ctx) <> 0%Z ->
   outcome r = Normal Undefined).
Proof.
  intros Hc Hn Hx r. subst r.
  rewrite decrypt_afternm_run by (assumption || lia). cbv zeta.
  rewrite Hc, Nat.sub_diag.
  split; [reflexivity |]. unfold outcome, completed. cbn [snd].
  split.
  - intros ->. reflexivity.
  - intros Hne. now rewrite (proj2 (Z.eqb_neq _ _) Hne).
Qed.

Lemma X12_witness :
  let r :=
    crypto_aead_aes256gcm_decrypt_afternm (Toy.sodium 1) Toy.uninit
      [Buffer (Toy.tag [] None Toy.nonce Toy.state); ad_value None;
       Buffer Toy.nonce; Buffer Toy.state] in
  length (transform_calls r) = 1 /\ outcome r = Normal (Buffer []).
Proof.
  destruct (X12_tag_only_ciphertext (Toy.sodium 1) Toy.uninit
              (Toy.tag [] None Toy.nonce Toy.state) None Toy.nonce
              Toy.state eq_refl eq_refl eq_refl) as (Hcall & Hok & _).
  split; [exact Hcall | apply Hok; reflexivity].
Defined.

(** ** How the methods compose *)

Lemma one_transform_call (r : M value) e0 rc v :
  r = ([statebytes_call; e0], completed rc v) ->
  is_transform e0 = true ->
  length (transform_calls r) = 1.
Proof.
  intros -> He0. unfold transform_calls, trace. cbn. now rewrite He0.
Qed.

(** X9: the state returned by [crypto_aead_aes256gcm_beforenm] for a key of
    KEYBYTES bytes, when the key expansion returns 0, passes the state
    check of all four precomputed-state methods: with a nonce of NPUBBYTES
    bytes (and a ciphertext of at least ABYTES bytes, or a tag of ABYTES
    bytes) each of them goes to the primitive.  This holds whatever the key
    expansion stored in the state. *)
Theorem X9_beforenm_state_is_accepted lib uninit key :
  length key = crypto_aead_aes256gcm_KEYBYTES ->
  fst (lib_aes256gcm_beforenm lib key) = 0%Z ->
  exists ctx,
    outcome (crypto_aead_aes256gcm_beforenm lib uninit [Buffer key])
    = Normal (Buffer ctx) /\
    forall input ad npub,
      length npub = crypto_aead_aes256gcm_NPUBBYTES ->
      length (transform_calls
                (crypto_aead_aes256gcm_encrypt_afternm lib uninit
                   [Buffer input; ad_value ad; Buffer npub; Buffer ctx]))
      = 1 /\
      length (transform_calls
                (crypto_aead_aes256gcm_encrypt_detached_afternm lib uninit
                   [Buffer input; ad_value ad; Buffer npub; Buffer ctx]))
      = 1 /\
      (crypto_aead_aes256gcm_ABYTES <= length input ->
       length (transform_calls
                 (crypto_aead_aes256gcm_decrypt_afternm lib uninit
                    [Buffer input; ad_value ad; Buffer npub; Buffer ctx]))
       = 1) /\
      (forall mac,
         length mac = crypto_aead_aes256gcm_ABYTES ->
         length (transform_calls
                   (crypto_aead_aes256gcm_decrypt_detached_afternm lib
                      uninit
                      [Buffer input; Buffer mac; ad_value ad; Buffer npub;
                       Buffer ctx]))
         = 1).
Proof.
  intros Hk Hrc. eexists. split.
  - rewrite beforenm_run by assumption. cbv zeta. rewrite Hrc. reflexivity.
  - intros input ad npub Hn.
    assert (length (store
                      (NEW_BUFFER_AND_PTR uninit 0
                         (lib_aes256gcm_statebytes lib))
                      (snd (lib_aes256gcm_beforenm lib key)))
            = lib_aes256gcm_statebytes lib) as Hx
      by now rewrite store_length, NEW_BUFFER_AND_PTR_length.
    split; [| split; [| split]].
    + eapply one_transform_call;
        [now apply encrypt_afternm_run | reflexivity].
    + eapply one_transform_call;
        [now apply encrypt_detached_afternm_run | reflexivity].
    + intros Hc. eapply one_transform_call;
        [now apply decrypt_afternm_run | reflexivity].
    + intros mac Hm. eapply one_transform_call;
        [now apply decrypt_detached_afternm_run | reflexivity].
Qed.

Lemma X9_witness :
  exists ctx,
    outcome (crypto_aead_aes256gcm_beforenm (Toy.sodium 1) Toy.uninit
               [Buffer Toy.key])
    = Normal (Buffer ctx) /\
    length (transform_calls
              (crypto_aead_aes256gcm_encrypt_afternm (Toy.sodium 1)
                 Toy.uninit
                 [Buffer Toy.message; ad_value None; Buffer Toy.nonce;
                  Buffer ctx]))
    = 1.
Proof.
  destruct (X9_beforenm_state_is_accepted (Toy.sodium 1) Toy.uninit Toy.key
              eq_refl eq_refl) as (ctx & Hctx & Haccepted).
  exists ctx. split; [exact Hctx |].
  apply (Haccepted Toy.message None Toy.nonce eq_refl).
Defined.

(** X10: what a successful encrypt returns always passes the validation of
    the matching decrypt.  The buffer of combined encrypt has at least
    ABYTES bytes, and the [mac] of detached encrypt has exactly ABYTES
    bytes, so decrypt with the same nonce and state goes to the primitive,
    whatever additional data it is given.  No property of the primitive is
    used beyond its return code. *)
Theorem X10_encrypt_output_passes_decrypt_validation lib uninit m ad npub
    ctx :
  length npub = crypto_aead_aes256gcm_NPUBBYTES ->
  length ctx = lib_aes256gcm_statebytes lib ->
  (fst (lib_aes256gcm_encrypt_afternm lib m ad npub ctx) = 0%Z ->
   exists c,
     outcome (crypto_aead_aes256gcm_encrypt_afternm lib uninit
                [Buffer m; ad_value ad; Buffer npub; Buffer ctx])
     = Normal (Buffer c) /\
     forall ad',
       length (transform_calls
                 (crypto_aead_aes256gcm_decrypt_afternm lib uninit
                    [Buffer c; ad_value ad'; Buffer npub; Buffer ctx]))
       = 1) /\
  (fst (lib_aes256gcm_encrypt_detached_afternm lib m ad npub ctx) = 0%Z ->
   exists c mac,
     outcome (crypto_aead_aes256gcm_encrypt_detached_afternm lib uninit
                [Buffer m; ad_value ad; Buffer npub; Buffer ctx])
     = Normal (Object [("cipherText", Buffer c); ("mac", Buffer mac)]) /\
     forall ad',
       length (transform_calls
                 (crypto_aead_aes256gcm_decrypt_detached_afternm lib uninit
                    [Buffer c; Buffer mac; ad_value ad'; Buffer npub;
                     Buffer ctx]))
       = 1).
Proof.
  intros Hn Hx. split.
  - intros Hrc. rewrite encrypt_afternm_run by assumption. cbv zeta.
    rewrite Hrc. eexists. split; [reflexivity |].
    intros ad'. eapply one_transform_call;
      [apply decrypt_afternm_run; try assumption | reflexivity].
    rewrite store_length, repeat_length. lia.
  - intros Hrc. rewrite encrypt_detached_afternm_run by assumption.
    cbv zeta. rewrite Hrc. do 2 eexists. split; [reflexivity |].
    intros ad'. eapply one_transform_call;
      [apply decrypt_detached_afternm_run; try assumption | reflexivity].
    now rewrite store_length, NEW_BUFFER_AND_PTR_length.
Qed.

(** The empty message under the toy library. *)
Lemma X10_witness :
  exists c,
    outcome (crypto_aead_aes256gcm_encrypt_afternm (Toy.sodium 1)
               Toy.uninit
               [Buffer []; ad_value None; Buffer Toy.nonce;
                Buffer Toy.state])
    = Normal (Buffer c) /\
    forall ad',
      length (transform_calls
                (crypto_aead_aes256gcm_decrypt_afternm (Toy.sodium 1)
                   Toy.uninit
                   [Buffer c; ad_value ad'; Buffer Toy.nonce;
                    Buffer Toy.state]))
      = 1.
Proof.
  apply (proj1 (X10_encrypt_output_passes_decrypt_validation (Toy.sodium 1)
                  Toy.uninit [] None Toy.nonce Toy.state
                  eq_refl eq_refl)).
  reflexivity.
Defined.

(** ** Edge behaviour *)

(** X11: detached decrypt with a precomputed state reads five arguments
    but asks for four.  Every call with fewer than five arguments throws
    and calls no transform, also the call with the four arguments
    (ciphertext, tag, nonce, state) that passes the argument count. *)
Theorem X11_detached_decrypt_needs_five_arguments lib uninit info :
  length info < 5 ->
  let r := crypto_aead_aes256gcm_decrypt_detached_afternm lib uninit info in
  (exists kind message, outcome r = Thrown kind message) /\
  transform_calls r = [].
Proof.
  intros Hshort r. subst r.
  destruct (decrypt_detached_afternm_shape lib uninit info)
    as [Hrej | (c & mac & npub & ctx & _ & _ & _ & Hctx & _)].
  - split; [apply Hrej | now apply rejected_facts].
  - rewrite nth_overflow in Hctx by lia. discriminate.
Qed.

(** The call of the sample in the sources. *)
Lemma X11_witness :
  let r :=
    crypto_aead_aes256gcm_decrypt_detached_afternm (Toy.sodium 1)
      Toy.uninit
      [Buffer (Toy.cipher Toy.message Toy.nonce Toy.state);
       Buffer (Toy.tag Toy.message None Toy.nonce Toy.state);
       Buffer Toy.nonce; Buffer Toy.state] in
  (exists kind message, outcome r = Thrown kind message) /\
  transform_calls r = [].
Proof.
  apply (X11_detached_decrypt_needs_five_arguments (Toy.sodium 1)
           Toy.uninit).
  cbn. lia.
Defined.

(** X13: on any arguments, combined encrypt with a precomputed state runs
    and ends the same whatever its fresh allocation held: no byte of the
    allocation reaches the primitive or the caller. *)
Theorem X13_combined_encrypt_ignores_allocation lib uninit uninit' info :
  crypto_aead_aes256gcm_encrypt_afternm lib uninit info
  = crypto_aead_aes256gcm_encrypt_afternm lib uninit' info.
Proof.
  unfold crypto_aead_aes256gcm_encrypt_afternm.
  rewrite !run_ARGS. destruct (length info <? 4); [reflexivity |].
  rewrite !run_ARG_TO_UCHAR_BUFFER.
  destruct (nth 0 info Undefined) as [| | |m|]; try reflexivity.
  rewrite !run_ARG_TO_UCHAR_BUFFER_OR_NULL. cbv beta.
  rewrite !run_ARG_TO_UCHAR_BUFFER_LEN.
  destruct (nth 2 info Undefined) as [| | |npub|]; try reflexivity.
  destruct (length npub =? crypto_aead_aes256gcm_NPUBBYTES);
    [| reflexivity].
  rewrite !run_ARG_TO_UCHAR_BUFFER_LEN_statebytes.
  destruct (nth 3 info Undefined) as [| | |ctx|]; try reflexivity.
  destruct (length ctx =? lib_aes256gcm_statebytes lib); [| reflexivity].
  cbv zeta. rewrite !run_call1, !memzero_new_buffer. reflexivity.
Qed.
